(** * The wallet helper of the WalletConnect test wallet

    A shallow embedding of [src/helpers/wallet.ts]: the module-level
    variables become one explicit state record, every exported function
    becomes a state-passing computation that may throw, and what the file
    imports (the constants, the chain table, the cryptography of ethers
    and of the STARK helper) is an interface the development is
    parameterised by.  The key-value storage is a finite map. *)

From Stdlib Require Import ZArith String Ascii List DecimalString DecimalZ Lia.
From Stdlib.Strings Require Import Byte.
From stdpp Require Import base option gmap strings list.

Open Scope string_scope.
Open Scope Z_scope.

(** ** JavaScript values *)

(** The values a dynamically typed payload field can hold.  Numbers are
    restricted to integers, which is what indices, chain ids and gas
    amounts are. *)
Inductive jsval : Type :=
  | JUndefined
  | JNull
  | JBool (b : bool)
  | JNum (n : Z)
  | JStr (s : string).

(** [if (v)]: undefined, null, false, 0 and the empty string are falsy. *)
Definition truthy (v : jsval) : bool :=
  match v with
  | JUndefined | JNull => false
  | JBool b => b
  | JNum n => negb (n =? 0)
  | JStr s => negb (String.eqb s "")
  end.

(** [!value] for a value of type [string | null]. *)
Definition falsy_string (v : option string) : bool :=
  match v with
  | None => true
  | Some s => String.eqb s ""
  end.

(** A plain object used as a record with optional fields. *)
Abbreviation Tx := (gmap string jsval).

(** [obj.key]: a missing property reads as undefined. *)
Definition prop (obj : Tx) (key : string) : jsval :=
  match obj !! key with
  | Some v => v
  | None => JUndefined
  end.

(** [key in obj] *)
Definition has_key (key : string) (obj : Tx) : bool :=
  match obj !! key with
  | Some _ => true
  | None => false
  end.

(** Template-literal conversion of an integer: its decimal digits.  This
    is what JavaScript prints for the safe integers, up to [2^53 - 1] in
    magnitude (see [safe_integer]); account indices are far below. *)
Definition number_to_string (n : Z) : string :=
  NilZero.string_of_int (Z.to_int n).

(** [String.prototype.toLowerCase] on ASCII text. *)
Definition lower_ascii (c : ascii) : ascii :=
  let n := N_of_ascii c in
  if ((65 <=? n) && (n <=? 90))%N then ascii_of_N (n + 32) else c.

Fixpoint toLowerCase (s : string) : string :=
  match s with
  | EmptyString => EmptyString
  | String c r => String (lower_ascii c) (toLowerCase r)
  end.

(** ** Hex strings (ethers.utils) *)

Definition HexCharacters : string := "0123456789abcdef".

Definition hex_char (n : N) : ascii :=
  match String.get (N.to_nat n) HexCharacters with
  | Some c => c
  | None => "0"%char
  end.

(** [hexlify] of a byte array: ["0x"] and two lower-case digits a byte. *)
Fixpoint hexlify_digits (bs : list byte) : string :=
  match bs with
  | [] => EmptyString
  | b :: r =>
      let v := Byte.to_N b in
      String (hex_char (N.shiftr (N.land v 240) 4))
        (String (hex_char (N.land v 15)) (hexlify_digits r))
  end.

Definition hexlify (bs : list byte) : string := "0x" +:+ hexlify_digits bs.

(** One character of the class [[0-9A-Fa-f]] and its value. *)
Definition hex_value (c : ascii) : option N :=
  let n := N_of_ascii c in
  if ((48 <=? n) && (n <=? 57))%N then Some (n - 48)%N
  else if ((97 <=? n) && (n <=? 102))%N then Some (n - 87)%N
  else if ((65 <=? n) && (n <=? 70))%N then Some (n - 55)%N
  else None.

Definition is_hex_digit (c : ascii) : bool :=
  match hex_value c with Some _ => true | None => false end.

(** The text after a leading ["0x"], if the string starts with one. *)
Definition strip_0x (value : string) : option string :=
  match value with
  | String c1 (String c2 rest) =>
      if Ascii.eqb c1 "0" && Ascii.eqb c2 "x" then Some rest else None
  | _ => None
  end.

(** The string matches [/^[0-9A-Fa-f]*$/]. *)
Definition all_hex (s : string) : bool :=
  forallb is_hex_digit (list_ascii_of_string s).

(** [isHexString(value)] with no length argument: the string matches
    [/^0x[0-9A-Fa-f]*$/]. *)
Definition isHexString (value : string) : bool :=
  match strip_0x value with
  | Some digits => all_hex digits
  | None => false
  end.

(** [parseInt(pair, 16)] of two hex digits, as a byte. *)
Definition byte_of_pair (hi lo : ascii) : byte :=
  let v := (16 * default 0 (hex_value hi) + default 0 (hex_value lo))%N in
  default x00 (Byte.of_N v).

Fixpoint parse_pairs (cs : list ascii) : list byte :=
  match cs with
  | hi :: lo :: r => byte_of_pair hi lo :: parse_pairs r
  | _ => []
  end.

(** The outcome of a call into a library: a value or a thrown error. *)
Inductive ext (A : Type) : Type :=
  | Returns (a : A)
  | Raises (e : string).
Arguments Returns {A} a.
Arguments Raises {A} e.

(** [arrayify(value)] of a string: the string must be ["0x"] followed by
    hex digits; an odd number of digits is padded with a leading zero and
    the digits are read two at a time. *)
Definition arrayify (value : string) : ext (list byte) :=
  match strip_0x value with
  | Some digits =>
      if all_hex digits then
        let cs := list_ascii_of_string digits in
        let cs' := if Nat.odd (List.length cs) then "0"%char :: cs else cs in
        Returns (parse_pairs cs')
      else Raises "invalid hexidecimal string"
  | None =>
      if all_hex value
      then Raises "hex string must have 0x prefix"
      else Raises "invalid hexidecimal string"
  end.

(** ** What a hex string denotes

    The reading of a hex string that the statements about [arrayify] are
    measured against: digit values on one side, half-bytes on the other. *)

(** The two half-bytes of a byte, high one first. *)
Definition nibbles (b : byte) : list N :=
  let v := Byte.to_N b in [N.shiftr v 4; N.land v 15].

(** The values of the digits of a hex text, in order. *)
Definition digit_values (digits : string) : list N :=
  map (fun c => default 0%N (hex_value c)) (list_ascii_of_string digits).

(** An odd number of digits is completed by a leading zero. *)
Definition pad_even (digits : string) : string :=
  if Nat.odd (String.length digits) then String "0" digits else digits.

(** ** Numbers a template literal prints digit by digit *)

(** [Number.MAX_SAFE_INTEGER] *)
Definition MAX_SAFE_INTEGER : Z := 2 ^ 53 - 1.

(** The integers every one of which is a JavaScript number and is printed
    by a template literal as its decimal digits.  Larger magnitudes are
    printed rounded, and in exponent form from [10^21] on. *)
Definition safe_integer (n : Z) : Prop :=
  - MAX_SAFE_INTEGER <= n <= MAX_SAFE_INTEGER.

(** Reading decimal digits, with an optional minus sign, as an integer. *)
Definition read_decimal (s : string) : option Z :=
  option_map Z.of_int (NilZero.int_of_string s).

(** ** Objects the libraries hand back *)

(** [new ethers.providers.JsonRpcProvider(rpcUrl)] *)
Record Provider : Type := JsonRpcProvider { url : string }.

(** An [ethers.Wallet]: the account key pair with an optional provider. *)
Record Wallet : Type := mkWallet {
  privateKey : string;
  address : string;
  provider : option Provider
}.

(** [wallet.connect(provider)] builds a new wallet; the receiver is left
    as it was. *)
Definition connect (w : Wallet) (p : Provider) : Wallet :=
  {| privateKey := privateKey w; address := address w; provider := Some p |}.

(** The entry [getChainData] returns, reduced to the field read here. *)
Record ChainData : Type := mkChainData { rpc_url : string }.

(** The response of [wallet.sendTransaction]. *)
Record TxResponse : Type := mkTxResponse { hash : string }.

(** What [wallet.signMessage] is given: a string or a byte array. *)
Inductive payload : Type :=
  | Text (s : string)
  | Bytes (bs : list byte).

(** How a call ends: with a value, with a thrown error (a rejected
    promise for the asynchronous functions), or not within the allotted
    call depth. *)
Inductive outcome (A : Type) : Type :=
  | Ok (a : A)
  | Throw (e : string)
  | OutOfFuel.
Arguments Ok {A} a.
Arguments Throw {A} e.
Arguments OutOfFuel {A}.

(** ** The collaborators

    Constants of [./constants], the chain table of [./utilities], the
    ethers entry points whose results are cryptographic, and the STARK
    helper of [./starkware].  None of them is defined in this file of the
    repository; the development holds for every implementation. *)
Class Env : Type := {
  STANDARD_PATH : string;
  ENTROPY_KEY : string;
  MNEMONIC_KEY : string;
  DEFAULT_ACTIVE_INDEX : Z;
  DEFAULT_CHAIN_ID : Z;
  (** [getChainData(chainId)] *)
  getChainData : Z -> ext ChainData;
  (** the [i]-th byte of the [k]-th call of [ethers.utils.randomBytes] *)
  random_byte : nat -> nat -> byte;
  (** [ethers.utils.HDNode.entropyToMnemonic(entropy)] *)
  entropyToMnemonic : string -> ext string;
  (** [ethers.Wallet.fromMnemonic(mnemonic, path)] *)
  fromMnemonic : string -> string -> ext Wallet;
  (** [wallet.sendTransaction(transaction)] *)
  wallet_sendTransaction : Wallet -> Tx -> ext TxResponse;
  (** [wallet.sign(transaction)] *)
  wallet_sign : Wallet -> Tx -> ext string;
  (** [wallet.signMessage(message)]: the personal-message convention *)
  wallet_signMessage : Wallet -> payload -> ext string;
  (** an ECDSA signature, [new SigningKey(key).signDigest(digest)] and
      [joinSignature(signature)] *)
  EcSignature : Type;
  signDigest : string -> list byte -> ext EcSignature;
  joinSignature : EcSignature -> string;
  (** [./starkware]: [ec.keyFromPrivate(key, "hex")], [sign], [verify] *)
  KeyPair : Type;
  StarkSignature : Type;
  keyFromPrivate : string -> KeyPair;
  stark_sign : KeyPair -> string -> ext StarkSignature;
  stark_verify : KeyPair -> string -> StarkSignature -> ext bool
}.

Section Wallet.

Context `{E : Env}.

(** ** State *)

(** The seven module-level variables of the file, followed by the part of
    the outside world its calls read or change. *)
Record State : Type := mkState {
  path : option string;
  entropy : option string;
  mnemonic : option string;
  activeIndex : Z;
  activeChainId : Z;
  wallet : option Wallet;
  starkKeyPair : option KeyPair;
  (** what the key-value storage of [./local] holds *)
  local : gmap string string;
  (** the calls of [setLocal] so far, oldest first *)
  writes : list (string * string);
  (** how many times [randomBytes] has been called *)
  draws : nat;
  (** the lines written by [console.error] *)
  console : list string;
  (** the transactions handed to [wallet.sendTransaction], in order *)
  submitted : list (Wallet * Tx)
}.

Definition set_path (v : option string) (s : State) : State :=
  mkState v (entropy s) (mnemonic s) (activeIndex s) (activeChainId s)
    (wallet s) (starkKeyPair s) (local s) (writes s)
    (draws s) (console s) (submitted s).

Definition set_entropy (v : option string) (s : State) : State :=
  mkState (path s) v (mnemonic s) (activeIndex s) (activeChainId s)
    (wallet s) (starkKeyPair s) (local s) (writes s)
    (draws s) (console s) (submitted s).

Definition set_mnemonic (v : option string) (s : State) : State :=
  mkState (path s) (entropy s) v (activeIndex s) (activeChainId s)
    (wallet s) (starkKeyPair s) (local s) (writes s)
    (draws s) (console s) (submitted s).

Definition set_activeIndex (v : Z) (s : State) : State :=
  mkState (path s) (entropy s) (mnemonic s) v (activeChainId s)
    (wallet s) (starkKeyPair s) (local s) (writes s)
    (draws s) (console s) (submitted s).

Definition set_activeChainId (v : Z) (s : State) : State :=
  mkState (path s) (entropy s) (mnemonic s) (activeIndex s) v
    (wallet s) (starkKeyPair s) (local s) (writes s)
    (draws s) (console s) (submitted s).

Definition set_wallet (v : option Wallet) (s : State) : State :=
  mkState (path s) (entropy s) (mnemonic s) (activeIndex s) (activeChainId s)
    v (starkKeyPair s) (local s) (writes s)
    (draws s) (console s) (submitted s).

Definition set_starkKeyPair (v : option KeyPair) (s : State) : State :=
  mkState (path s) (entropy s) (mnemonic s) (activeIndex s) (activeChainId s)
    (wallet s) v (local s) (writes s)
    (draws s) (console s) (submitted s).

Definition set_local (v : gmap string string) (s : State) : State :=
  mkState (path s) (entropy s) (mnemonic s) (activeIndex s) (activeChainId s)
    (wallet s) (starkKeyPair s) v (writes s)
    (draws s) (console s) (submitted s).

Definition set_writes (v : list (string * string)) (s : State) : State :=
  mkState (path s) (entropy s) (mnemonic s) (activeIndex s) (activeChainId s)
    (wallet s) (starkKeyPair s) (local s) v
    (draws s) (console s) (submitted s).

Definition set_draws (v : nat) (s : State) : State :=
  mkState (path s) (entropy s) (mnemonic s) (activeIndex s) (activeChainId s)
    (wallet s) (starkKeyPair s) (local s) (writes s)
    v (console s) (submitted s).

Definition set_console (v : list string) (s : State) : State :=
  mkState (path s) (entropy s) (mnemonic s) (activeIndex s) (activeChainId s)
    (wallet s) (starkKeyPair s) (local s) (writes s)
    (draws s) v (submitted s).

Definition set_submitted (v : list (Wallet * Tx)) (s : State) : State :=
  mkState (path s) (entropy s) (mnemonic s) (activeIndex s) (activeChainId s)
    (wallet s) (starkKeyPair s) (local s) (writes s)
    (draws s) (console s) v.

(** The state right after the module is loaded, over a given storage. *)
Definition initial (stored : gmap string string) : State :=
  mkState None None None DEFAULT_ACTIVE_INDEX DEFAULT_CHAIN_ID None None
    stored [] 0%nat [] [].

(** ** Computations *)

(** A call runs on the state and leaves a state behind, also when it
    throws: assignments made before the throw stay.  The [await]s of the
    source are sequenced in program order (one caller at a time). *)
Definition M (A : Type) : Type := State -> outcome A * State.

Definition ret {A} (a : A) : M A := fun s => (Ok a, s).

Definition throw {A} (e : string) : M A := fun s => (Throw e, s).

Definition bind {A B} (m : M A) (k : A -> M B) : M B :=
  fun s =>
    match m s with
    | (Ok a, s') => k a s'
    | (Throw e, s') => (Throw e, s')
    | (OutOfFuel, s') => (OutOfFuel, s')
    end.

Definition out_of_fuel {A} : M A := fun s => (OutOfFuel, s).

Definition get {A} (f : State -> A) : M A := fun s => (Ok (f s), s).

Definition modify (f : State -> State) : M unit := fun s => (Ok tt, f s).

Definition call {A} (r : ext A) : M A :=
  match r with
  | Returns a => ret a
  | Raises e => throw e
  end.

Notation "'let!' x ':=' m 'in' k" := (bind m (fun x => k))
  (at level 10, x name, m at level 100, k at level 200, only parsing).
Notation "m ';;;' k" := (bind m (fun _ => k))
  (at level 100, k at level 200, right associativity, only parsing).

Definition console_error (line : string) : M unit :=
  modify (fun s => set_console (console s ++ [line]) s).

(** ** Storage ([./local]) *)

(** Modelled from the spec: [getLocal] of [./local], which is not among
    the sources; the spec gives the storage collaborator as
    [get(key) -> string|null], a read of a key-value store. *)
Definition getLocal (key : string) : M (option string) :=
  get (fun s => local s !! key).

(** Modelled from the spec: [setLocal] of [./local], which is not among
    the sources; the spec gives it as [set(key, value) -> void], a write
    to the same store.  Each call is also logged in [writes]. *)
Definition setLocal (key value : string) : M unit :=
  modify (fun s =>
    set_writes (writes s ++ [(key, value)])
      (set_local (<[key := value]> (local s)) s)).

(** ** Secret material *)

Definition randomBytes (n : nat) : M (list byte) :=
  fun s => (Ok (map (random_byte (draws s)) (seq 0 n)),
            set_draws (S (draws s)) s).

Definition generateEntropy : M string :=
  let! bs := randomBytes 16 in
  let e := hexlify bs in
  modify (set_entropy (Some e)) ;;;
  ret e.

(** [getData] and [generateMnemonic] call each other through
    [getEntropy]; the cycle is cut at the call of [getEntropy]. *)
Section GetData.

Variable getEntropy_rec : M string.

Definition generateMnemonic_body : M string :=
  let! e := getEntropy_rec in
  let! m := call (entropyToMnemonic e) in
  modify (set_mnemonic (Some m)) ;;;
  ret m.

Definition getData_body (key : string) : M string :=
  let! value := getLocal key in
  if falsy_string value then
    let! value :=
      if String.eqb key ENTROPY_KEY then generateEntropy
      else if String.eqb key MNEMONIC_KEY then generateMnemonic_body
      else throw ("Unknown data key: " +:+ key) in
    setLocal key value ;;;
    ret value
  else ret (default "" value).

End GetData.

Fixpoint getData_fuel (fuel : nat) (key : string) : M string :=
  match fuel with
  | O => out_of_fuel
  | S fuel' => getData_body (getData_fuel fuel' ENTROPY_KEY) key
  end.

(** Two levels are all the cycle ever takes, see [getData_fuel_enough]. *)
Definition getData : string -> M string := getData_fuel 2.

Definition getEntropy : M string := getData ENTROPY_KEY.

Definition getMnemonic : M string := getData MNEMONIC_KEY.

Definition generateMnemonic : M string := generateMnemonic_body getEntropy.

(** ** Account derivation *)

Definition generatePath (index : Z) : M string :=
  let p := STANDARD_PATH +:+ "/" +:+ number_to_string index in
  modify (set_path (Some p)) ;;;
  ret p.

(** The arguments of [fromMnemonic] are evaluated left to right. *)
Definition generateWallet (index : Z) : M Wallet :=
  let! m := getMnemonic in
  let! p := generatePath index in
  let! w := call (fromMnemonic m p) in
  modify (set_wallet (Some w)) ;;;
  ret w.

(** The loop of [getAccounts]: [todo] iterations are left, [i] is the
    loop counter.  The [wallet] the loop assigns is a local of
    [getAccounts]; the one [generateWallet] assigns is the module's. *)
Fixpoint getAccounts_loop (todo : nat) (i : Z) (accounts : list string)
  : M (list string) :=
  match todo with
  | O => ret accounts
  | S todo' =>
      let! w := generateWallet i in
      getAccounts_loop todo' (i + 1) (accounts ++ [address w])
  end.

Definition getAccounts (count : option Z) : M (list string) :=
  let count := default 2 count in
  getAccounts_loop (Z.to_nat count) 0 [].

(** ** The active account *)

Definition isWalletActive : M (option Wallet) :=
  let! w := get wallet in
  match w with
  | None => ret w
  | Some _ => ret None
  end.

(** [activeIndex === index] where [index] may be undefined. *)
Definition strict_eq (active : Z) (requested : option Z) : bool :=
  match requested with
  | Some n => active =? n
  | None => false
  end.

(** [getWallet], [initWallet], [updateWallet] and
    [generateStarkwareKeyPair] call each other in a cycle; it is cut at
    the call of [getWallet] in [generateStarkwareKeyPair]. *)
Section GetWallet.

Variable getWallet_rec : option Z -> option Z -> M Wallet.

Definition generateStarkwareKeyPair_body : M KeyPair :=
  let! w := getWallet_rec None None in
  let kp := keyFromPrivate (privateKey w) in
  modify (set_starkKeyPair (Some kp)) ;;;
  ret kp.

(** [wallet = generateWallet(index)] assigns the module's [wallet] a
    second time; [wallet.connect(provider)] and [return wallet] read it
    back after the key pair is made.  The connected wallet is dropped. *)
Definition updateWallet_body (index chainId : Z) : M Wallet :=
  modify (set_activeIndex index) ;;;
  modify (set_activeChainId chainId) ;;;
  let! chain := call (getChainData chainId) in
  let rpcUrl := rpc_url chain in
  let! w := generateWallet index in
  modify (set_wallet (Some w)) ;;;
  let! _kp := generateStarkwareKeyPair_body in
  let provider := JsonRpcProvider rpcUrl in
  let! current := get wallet in
  match current with
  | Some w' =>
      let _connected := connect w' provider in
      ret w'
  | None => throw "TypeError: Cannot read property 'connect' of null"
  end.

Definition initWallet_body (index chainId : option Z) : M Wallet :=
  updateWallet_body (default DEFAULT_ACTIVE_INDEX index)
    (default DEFAULT_CHAIN_ID chainId).

Definition getWallet_body (index chainId : option Z) : M Wallet :=
  let! cached := get wallet in
  let! ai := get activeIndex in
  let! ac := get activeChainId in
  match cached with
  | Some w =>
      if strict_eq ai index || strict_eq ac chainId
      then initWallet_body index chainId
      else ret w
  | None => initWallet_body index chainId
  end.

End GetWallet.

Fixpoint getWallet_fuel (fuel : nat) (index chainId : option Z) : M Wallet :=
  match fuel with
  | O => out_of_fuel
  | S fuel' => getWallet_body (getWallet_fuel fuel') index chainId
  end.

(** Two levels are all the cycle ever takes, see [getWallet_fuel_enough]. *)
Definition getWallet : option Z -> option Z -> M Wallet := getWallet_fuel 2.

Definition generateStarkwareKeyPair : M KeyPair :=
  generateStarkwareKeyPair_body getWallet.

Definition updateWallet : Z -> Z -> M Wallet := updateWallet_body getWallet.

Definition initWallet : option Z -> option Z -> M Wallet :=
  initWallet_body getWallet.

Definition getStakwareKeyPair : M KeyPair :=
  let! keyPair := get starkKeyPair in
  match keyPair with
  | Some kp => ret kp
  | None => generateStarkwareKeyPair
  end.

(** ** The signing operations *)

(** [v.toLowerCase()]: only a string has the method. *)
Definition js_toLowerCase (v : jsval) : M string :=
  match v with
  | JStr s => ret (toLowerCase s)
  | _ => throw "TypeError: transaction.from.toLowerCase is not a function"
  end.

(** [if (obj.from) { delete obj.from; }] *)
Definition strip_from (obj : Tx) : Tx :=
  if truthy (prop obj "from") then delete "from" obj else obj.

(** [if ("gas" in obj) { obj.gasLimit = obj.gas; delete obj.gas; }] *)
Definition gas_to_gasLimit (obj : Tx) : Tx :=
  if has_key "gas" obj
  then delete "gas" (<["gasLimit" := prop obj "gas"]> obj)
  else obj.

(** The object is changed in place and then handed to the wallet; every
    hand-over is recorded in [submitted]. *)
Definition sendTransaction (transaction : Tx) : M (option string) :=
  let! active := get wallet in
  match active with
  | Some w =>
      (if truthy (prop transaction "from") then
         let! sender := js_toLowerCase (prop transaction "from") in
         if negb (String.eqb sender (toLowerCase (address w)))
         then console_error
                "Transaction request From doesn't match active account"
         else ret tt
       else ret tt) ;;;
      let transaction := strip_from transaction in
      let transaction := gas_to_gasLimit transaction in
      modify (fun s => set_submitted (submitted s ++ [(w, transaction)]) s) ;;;
      let! result := call (wallet_sendTransaction w transaction) in
      ret (Some (hash result))
  | None =>
      console_error "No Active Account" ;;;
      ret None
  end.

Definition signTransaction (data : Tx) : M (option string) :=
  let! active := get wallet in
  match active with
  | Some w =>
      let data := strip_from data in
      let! result := call (wallet_sign w data) in
      ret (Some result)
  | None =>
      console_error "No Active Account" ;;;
      ret None
  end.

Definition signMessage (data : string) : M (option string) :=
  let! active := get wallet in
  match active with
  | Some w =>
      let! digest := call (arrayify data) in
      let! sigParams := call (signDigest (privateKey w) digest) in
      ret (Some (joinSignature sigParams))
  | None =>
      console_error "No Active Account" ;;;
      ret None
  end.

(** The argument [signPersonalMessage] passes to [wallet.signMessage]. *)
Definition personal_payload (message : string) : M payload :=
  if isHexString message
  then let! bs := call (arrayify message) in ret (Bytes bs)
  else ret (Text message).

Definition signPersonalMessage (message : string) : M (option string) :=
  let! active := get wallet in
  match active with
  | Some w =>
      let! arg := personal_payload message in
      let! result := call (wallet_signMessage w arg) in
      ret (Some result)
  | None =>
      console_error "No Active Account" ;;;
      ret None
  end.

Definition starkwareSign (msg : string) : M StarkSignature :=
  let! keyPair := getStakwareKeyPair in
  call (stark_sign keyPair msg).

Definition starkwareVerify (msg : string) (sig : StarkSignature) : M bool :=
  let! keyPair := getStakwareKeyPair in
  call (stark_verify keyPair msg sig).

(** ** Vocabulary of the statements *)

(** What a state keeps when only secret material is touched: every
    module variable and effect log other than [entropy], [mnemonic], the
    storage and the random draws. *)
Definition same_account (s s' : State) : Prop :=
  path s' = path s /\ activeIndex s' = activeIndex s /\
  activeChainId s' = activeChainId s /\ wallet s' = wallet s /\
  starkKeyPair s' = starkKeyPair s /\ console s' = console s /\
  submitted s' = submitted s.

(** The active selection and the STARK key pair of a state. *)
Definition same_selection (s s' : State) : Prop :=
  activeIndex s' = activeIndex s /\ activeChainId s' = activeChainId s /\
  starkKeyPair s' = starkKeyPair s.

(** The test of [getWallet]:
    [!_wallet || activeIndex === index || activeChainId === chainId]. *)
Definition rederives (s : State) (index chainId : option Z) : bool :=
  match wallet s with
  | None => true
  | Some _ =>
      strict_eq (activeIndex s) index || strict_eq (activeChainId s) chainId
  end.

(** The derivation path of an account index. *)
Definition path_of (index : Z) : string :=
  STANDARD_PATH +:+ "/" +:+ number_to_string index.

(** How a signing operation hands on what the library answered. *)
Definition reply (r : ext string) : outcome (option string) :=
  match r with
  | Returns x => Ok (Some x)
  | Raises e => Throw e
  end.

(** The state a guarded operation leaves when no wallet is active. *)
Definition no_active_account (s : State) : State :=
  set_console (console s ++ ["No Active Account"]) s.

(** ** The exported functions as operations on the state *)

(** One constructor per exported function, with its arguments.
    [getStarkKey] is left out: on the state it is [getStakwareKeyPair],
    followed by reads of the key pair in the STARK library. *)
Inductive api : Type :=
  | IsWalletActive
  | GetWallet (index chainId : option Z)
  | GetAccounts (count : option Z)
  | GetData (key : string)
  | GeneratePath (index : Z)
  | GenerateEntropy
  | GenerateMnemonic
  | GenerateWallet (index : Z)
  | GenerateStarkwareKeyPair
  | GetEntropy
  | GetMnemonic
  | GetStakwareKeyPair
  | InitWallet (index chainId : option Z)
  | UpdateWallet (index chainId : Z)
  | SendTransaction (transaction : Tx)
  | SignTransaction (data : Tx)
  | SignMessage (data : string)
  | SignPersonalMessage (message : string)
  | StarkwareSign (msg : string)
  | StarkwareVerify (msg : string) (sig : StarkSignature).

(** The state a call leaves, whichever way it ends. *)
Definition after (c : api) (s : State) : State :=
  match c with
  | IsWalletActive => snd (isWalletActive s)
  | GetWallet index chainId => snd (getWallet index chainId s)
  | GetAccounts count => snd (getAccounts count s)
  | GetData key => snd (getData key s)
  | GeneratePath index => snd (generatePath index s)
  | GenerateEntropy => snd (generateEntropy s)
  | GenerateMnemonic => snd (generateMnemonic s)
  | GenerateWallet index => snd (generateWallet index s)
  | GenerateStarkwareKeyPair => snd (generateStarkwareKeyPair s)
  | GetEntropy => snd (getEntropy s)
  | GetMnemonic => snd (getMnemonic s)
  | GetStakwareKeyPair => snd (getStakwareKeyPair s)
  | InitWallet index chainId => snd (initWallet index chainId s)
  | UpdateWallet index chainId => snd (updateWallet index chainId s)
  | SendTransaction transaction => snd (sendTransaction transaction s)
  | SignTransaction data => snd (signTransaction data s)
  | SignMessage data => snd (signMessage data s)
  | SignPersonalMessage message => snd (signPersonalMessage message s)
  | StarkwareSign msg => snd (starkwareSign msg s)
  | StarkwareVerify msg sig => snd (starkwareVerify msg sig s)
  end.

(** The state after a sequence of calls, one caller at a time. *)
Definition after_all (cs : list api) (s : State) : State :=
  fold_left (fun s c => after c s) cs s.

(** The two keys the module has a generation rule for. *)
Definition secret_key (k : string) : Prop :=
  k = ENTROPY_KEY \/ k = MNEMONIC_KEY.

(** What no call undoes, from a state [s] to a later state [s']. *)
Record evolves (s s' : State) : Prop := mk_evolves {
  ev_wallet : is_Some (wallet s) -> is_Some (wallet s');
  ev_stark : is_Some (starkKeyPair s) -> is_Some (starkKeyPair s');
  ev_keyed : starkKeyPair s' = starkKeyPair s \/ is_Some (wallet s');
  ev_writes :
    exists t, writes s' = (writes s ++ t)%list /\
              Forall (fun kv => secret_key (fst kv)) t;
  ev_other : forall k, ~ secret_key k -> local s' !! k = local s !! k;
  ev_kept :
    forall k v, local s !! k = Some v -> v <> "" -> local s' !! k = Some v;
  ev_draws : (draws s <= draws s')%nat;
  ev_console : console s `prefix_of` console s';
  ev_submitted : submitted s `prefix_of` submitted s'
}.

(** A computation every run of which only evolves the state. *)
Definition steady {A} (m : M A) : Prop :=
  forall s, evolves s (snd (m s)).

(** The warning of [sendTransaction] about a foreign sender. *)
Definition from_mismatch : string :=
  "Transaction request From doesn't match active account".

End Wallet.

Arguments State : clear implicits.
Arguments M : clear implicits.

(** ** A small implementation of the collaborators

    Used to run the definitions on concrete inputs.  Keys and signatures
    are strings that spell out what they were made from. *)
Definition sample_env : Env := {|
  STANDARD_PATH := "m/44'/60'/0'/0";
  ENTROPY_KEY := "ENTROPY";
  MNEMONIC_KEY := "MNEMONIC";
  DEFAULT_ACTIVE_INDEX := 0;
  DEFAULT_CHAIN_ID := 1;
  getChainData := fun chainId =>
    if (chainId =? 1) || (chainId =? 4)
    then Returns (mkChainData ("https://rpc/" +:+ number_to_string chainId))
    else Raises "ChainId missing or not supported";
  random_byte := fun k i => default x00 (Byte.of_nat (16 * k + i));
  entropyToMnemonic := fun e =>
    if isHexString e then Returns ("words of " +:+ e)
    else Raises "invalid entropy";
  fromMnemonic := fun m p =>
    Returns (mkWallet ("key(" +:+ m +:+ "," +:+ p +:+ ")")
                      ("Addr(" +:+ p +:+ ")") None);
  wallet_sendTransaction := fun w tx =>
    Returns (mkTxResponse ("hash by " +:+ address w));
  wallet_sign := fun w tx => Returns ("signed by " +:+ address w);
  wallet_signMessage := fun w arg =>
    match arg with
    | Text s => Returns ("text " +:+ s +:+ " signed by " +:+ address w)
    | Bytes bs =>
        Returns ("bytes " +:+ hexlify bs +:+ " signed by " +:+ address w)
    end;
  EcSignature := string;
  signDigest := fun key digest =>
    Returns ("digest " +:+ hexlify digest +:+ " under " +:+ key);
  joinSignature := fun sig => sig;
  KeyPair := string;
  StarkSignature := string;
  keyFromPrivate := fun key => "stark(" +:+ key +:+ ")";
  stark_sign := fun kp msg => Returns (msg +:+ " signed with " +:+ kp);
  stark_verify := fun kp msg sig =>
    Returns (String.eqb sig (msg +:+ " signed with " +:+ kp))
|}.

(** The module just loaded, over an empty storage. *)
Definition sample_start : State sample_env := initial ∅.

(** The account of index 0 in the sample implementation. *)
Definition sample_wallet0 : Wallet :=
  mkWallet
    "key(words of 0x000102030405060708090a0b0c0d0e0f,m/44'/60'/0'/0/0)"
    "Addr(m/44'/60'/0'/0/0)" None.

(** The state after [getWallet(0, 1)] on the fresh module. *)
Definition sample_active : State sample_env :=
  snd (getWallet (Some 0) (Some 1) sample_start).

(** The state after [getAccounts(2)] on top of that. *)
Definition sample_listed : State sample_env :=
  snd (getAccounts (Some 2) sample_active).

(** [{ from: "", gas: 21000 }] *)
Definition tx_empty_from : Tx :=
  <["from" := JStr ""]> (<["gas" := JNum 21000]> ∅).

(** [{ from: "0xABCD", to: "0x01", gas: 21000 }] *)
Definition tx_with_from : Tx :=
  <["from" := JStr "0xABCD"]>
    (<["to" := JStr "0x01"]> (<["gas" := JNum 21000]> ∅)).

(** [{ from: 5, gas: 21000 }] *)
Definition tx_number_from : Tx :=
  <["from" := JNum 5]> (<["gas" := JNum 21000]> ∅).

(** [{ gas: 21000, gasLimit: 50000 }] *)
Definition tx_both_limits : Tx :=
  <["gas" := JNum 21000]> (<["gasLimit" := JNum 50000]> ∅).

(** A mixed run of exported functions. *)
Definition sample_calls : list (api (E := sample_env)) :=
  [ GetAccounts None; GenerateEntropy; GenerateMnemonic;
    GetData "PASSWORD"; UpdateWallet 3 7; GetWallet (Some 3) (Some 4);
    SendTransaction tx_with_from; StarkwareSign "hello" ].

(** A fresh module over a storage whose entropy is not a hex string. *)
Definition sample_broken : State sample_env :=
  initial (<["ENTROPY" := "garbage"]> ∅).

(** The account of index 1 in the sample implementation. *)
Definition sample_wallet1 : Wallet :=
  mkWallet
    "key(words of 0x000102030405060708090a0b0c0d0e0f,m/44'/60'/0'/0/1)"
    "Addr(m/44'/60'/0'/0/1)" None.

(** * Checks on concrete inputs *)

Example hexlify_sample : hexlify [x00; x2a; xff] = "0x002aff".
Proof. reflexivity. Qed.

Example arrayify_sample :
  arrayify "0xABc" = Returns [x0a; xbc] /\
  arrayify "abcd" = Raises "hex string must have 0x prefix" /\
  arrayify "0xzz" = Raises "invalid hexidecimal string".
Proof. repeat split; reflexivity. Qed.

Example isHexString_sample :
  isHexString "0x" = true /\ isHexString "deadbeef" = false /\
  isHexString "0x12g4" = false /\ isHexString "hello" = false.
Proof. repeat split; reflexivity. Qed.

Example number_to_string_sample :
  number_to_string 0 = "0" /\ number_to_string 17 = "17" /\
  number_to_string (-3) = "-3".
Proof. repeat split; reflexivity. Qed.

(** * Reading hex and decimal text *)

Lemma hex_value_bound c h : hex_value c = Some h -> (h < 16)%N.
Proof.
  unfold hex_value.
  destruct (48 <=? N_of_ascii c)%N eqn:H1, (N_of_ascii c <=? 57)%N eqn:H2;
  destruct (97 <=? N_of_ascii c)%N eqn:H3, (N_of_ascii c <=? 102)%N eqn:H4;
  destruct (65 <=? N_of_ascii c)%N eqn:H5, (N_of_ascii c <=? 70)%N eqn:H6;
  cbn; intros [= <-];
  rewrite ?N.leb_le, ?N.leb_gt in *; lia.
Qed.

(** Two hex digits make the byte whose half-bytes are their values. *)
Lemma nibbles_byte_of_pair a b h l :
  hex_value a = Some h -> hex_value b = Some l ->
  nibbles (byte_of_pair a b) = [h; l].
Proof.
  intros Ha Hb. pose proof (hex_value_bound _ _ Ha) as Hh.
  pose proof (hex_value_bound _ _ Hb) as Hl.
  unfold nibbles, byte_of_pair. rewrite Ha, Hb. cbn [default from_option id].
  destruct (Byte.of_N (16 * h + l)) as [y |] eqn:Hy.
  - apply Byte.to_of_N in Hy. cbn [default from_option id]. rewrite Hy.
    f_equal; [| f_equal].
    + rewrite N.shiftr_div_pow2. change (2 ^ 4)%N with 16%N.
      symmetry. apply (N.div_unique _ 16 h l); lia.
    + change 15%N with (N.ones 4). rewrite N.land_ones.
      change (2 ^ 4)%N with 16%N.
      symmetry. apply (N.mod_unique _ 16 h l); lia.
  - apply Byte.of_N_None_iff in Hy. lia.
Qed.

Lemma list_pair_ind {A} (P : list A -> Prop) :
  P [] -> (forall a, P [a]) -> (forall a b l, P l -> P (a :: b :: l)) ->
  forall l, P l.
Proof.
  intros H0 H1 H2.
  assert (H : forall l, P l /\ forall a, P (a :: l)).
  { induction l as [| b l [IH1 IH2]]; split; auto. }
  intros l. apply H.
Qed.

Lemma parse_pairs_nibbles cs :
  forallb is_hex_digit cs = true -> Nat.odd (List.length cs) = false ->
  flat_map nibbles (parse_pairs cs) =
    map (fun c => default 0%N (hex_value c)) cs.
Proof.
  induction cs as [| a | a b l IH] using list_pair_ind.
  - reflexivity.
  - discriminate.
  - cbn [forallb]. unfold is_hex_digit at 1 2.
    destruct (hex_value a) as [h |] eqn:Ha; [| discriminate].
    destruct (hex_value b) as [v |] eqn:Hb; [| discriminate].
    cbn [andb]. intros Hl Hodd.
    cbn [parse_pairs flat_map map].
    rewrite (nibbles_byte_of_pair a b h v Ha Hb), Ha, Hb.
    cbn [app default from_option id]. f_equal. f_equal.
    apply IH; [exact Hl |]. exact Hodd.
Qed.

Lemma length_list_ascii s :
  List.length (list_ascii_of_string s) = String.length s.
Proof. induction s as [| c s IH]; cbn; [reflexivity | now rewrite IH]. Qed.

Lemma strip_0x_Some value digits :
  strip_0x value = Some digits -> value = "0x" +:+ digits.
Proof.
  destruct value as [| c1 [| c2 rest]]; try discriminate. cbn.
  destruct (Ascii.eqb_spec c1 "0") as [-> |]; [| discriminate].
  destruct (Ascii.eqb_spec c2 "x") as [-> |]; [| discriminate].
  now intros [= <-].
Qed.

(** What [arrayify] makes of a hex string: the bytes whose half-bytes are
    the values of the digits, a leading zero completing an odd count. *)
Lemma arrayify_denotes message :
  isHexString message = true ->
  exists digits bs,
    message = "0x" +:+ digits /\ arrayify message = Returns bs /\
    flat_map nibbles bs = digit_values (pad_even digits).
Proof.
  unfold isHexString, arrayify.
  destruct (strip_0x message) as [digits |] eqn:Hs; [| discriminate].
  intros Hall. rewrite Hall. cbv zeta. eexists digits, _.
  split; [now apply strip_0x_Some |]. split; [reflexivity |].
  unfold digit_values, pad_even. rewrite length_list_ascii.
  unfold all_hex in Hall.
  destruct (Nat.odd (String.length digits)) eqn:Hodd.
  - apply parse_pairs_nibbles.
    + exact (proj2 (andb_true_iff _ _) (conj eq_refl Hall)).
    + change (Nat.odd (S (List.length (list_ascii_of_string digits)))
              = false).
      rewrite length_list_ascii, Nat.odd_succ.
      now rewrite <- Nat.negb_odd, Hodd.
  - apply parse_pairs_nibbles; [exact Hall |].
    now rewrite length_list_ascii.
Qed.

(** The half-bytes determine the bytes. *)
Lemma nibbles_determine_bytes bs bs' :
  flat_map nibbles bs = flat_map nibbles bs' -> bs = bs'.
Proof.
  revert bs'. induction bs as [| b bs IH]; intros [| b' bs']; cbn;
    try discriminate; [reflexivity |].
  intros [= H1 H2 H3]. f_equal; [| now apply IH].
  assert (Hv : Byte.to_N b = Byte.to_N b').
  { apply N.bits_inj. intros n.
    destruct (N.lt_ge_cases n 4) as [Hn | Hn].
    - apply (f_equal (fun x => N.testbit x n)) in H2.
      change 15%N with (N.ones 4) in H2.
      rewrite !N.land_spec, !N.ones_spec_low, !andb_true_r in H2 by exact Hn.
      exact H2.
    - apply (f_equal (fun x => N.testbit x (n - 4))) in H1.
      rewrite !N.shiftr_spec' in H1.
      now replace (n - 4 + 4)%N with n in H1 by lia. }
  pose proof (Byte.of_to_N b) as Hb. pose proof (Byte.of_to_N b') as Hb'.
  rewrite Hv in Hb. congruence.
Qed.

Lemma read_decimal_number n : read_decimal (number_to_string n) = Some n.
Proof.
  unfold read_decimal, number_to_string.
  rewrite NilZero.isi.
  - cbn. now rewrite DecimalZ.of_to.
  - intros H. pose proof (DecimalZ.of_to n) as Hn. rewrite H in Hn.
    cbn in Hn. subst n. discriminate.
  - intros H. pose proof (DecimalZ.of_to n) as Hn. rewrite H in Hn.
    cbn in Hn. subst n. discriminate.
Qed.

Lemma append_cancel_l p a b : p +:+ a = p +:+ b -> a = b.
Proof. induction p as [| c p IH]; cbn; [easy | intros [= H]; auto]. Qed.

(** * Properties *)

Section Properties.

Context `{E : Env}.

Implicit Types (s st : State E) (key : string).

(** ** Sequencing *)

Lemma bind_ext {A B} (m1 m2 : M E A) (k : A -> M E B) s :
  m1 s = m2 s -> bind m1 k s = bind m2 k s.
Proof. intros H. unfold bind. now rewrite H. Qed.

(** Unfolds the state-passing plumbing, not the functions of the file. *)
Ltac plumbing :=
  unfold call, bind, ret, throw, get, modify, console_error, out_of_fuel in *;
  cbn [fst snd] in *.

(** ** Storage and secret material *)

Lemma falsy_string_false v :
  falsy_string v = false -> exists x, v = Some x /\ x <> "".
Proof.
  destruct v as [x |]; cbn; [| discriminate].
  intros H. exists x. split; [reflexivity |].
  intros ->. discriminate.
Qed.

Lemma falsy_string_Some x : x <> "" -> falsy_string (Some x) = false.
Proof. intros H. cbn. now apply String.eqb_neq. Qed.

Lemma hexlify_nonempty bs : hexlify bs <> "".
Proof. unfold hexlify. cbn. discriminate. Qed.

(** A truthy stored value is returned as it is; nothing is written. *)
Lemma getData_body_cached rec key s x :
  local s !! key = Some x -> x <> "" ->
  getData_body rec key s = (Ok x, s).
Proof.
  intros Hx Hne. unfold getData_body, getLocal. plumbing.
  rewrite Hx, (falsy_string_Some x Hne). reflexivity.
Qed.

(** For the entropy key the body never reaches [generateMnemonic]. *)
Lemma getData_body_entropy rec s :
  getData_body rec ENTROPY_KEY s =
    if falsy_string (local s !! ENTROPY_KEY) then
      let e := hexlify (map (random_byte (draws s)) (seq 0 16)) in
      let s1 := set_entropy (Some e) (set_draws (S (draws s)) s) in
      (Ok e, set_writes (writes s1 ++ [(ENTROPY_KEY, e)])
               (set_local (<[ENTROPY_KEY := e]> (local s1)) s1))
    else (Ok (default "" (local s !! ENTROPY_KEY)), s).
Proof.
  unfold getData_body, getLocal, setLocal. plumbing.
  destruct (falsy_string (local s !! ENTROPY_KEY)); [| reflexivity].
  rewrite String.eqb_refl. reflexivity.
Qed.

Lemma getData_body_congr rec1 rec2 key s :
  (forall s', rec1 s' = rec2 s') ->
  getData_body rec1 key s = getData_body rec2 key s.
Proof.
  intros H. unfold getData_body, generateMnemonic_body. plumbing.
  destruct (getLocal key s) as [[v | e |] s1]; try reflexivity.
  destruct (falsy_string v); [| reflexivity].
  destruct (String.eqb key ENTROPY_KEY); [reflexivity |].
  destruct (String.eqb key MNEMONIC_KEY); [| reflexivity].
  now rewrite H.
Qed.

Lemma getData_fuel_entropy n s :
  getData_fuel (S n) ENTROPY_KEY s = getData_fuel 1 ENTROPY_KEY s.
Proof. cbn [getData_fuel]. now rewrite !getData_body_entropy. Qed.

(** The call depth never exceeds two: more fuel changes nothing. *)
Lemma getData_fuel_enough n key s :
  getData_fuel (2 + n) key s = getData key s.
Proof.
  unfold getData. change (2 + n)%nat with (S (S n)). cbn [getData_fuel].
  apply getData_body_congr. intros s'.
  apply (getData_fuel_entropy n s').
Qed.

(** [getData] satisfies the equation the source reads as. *)
Lemma getData_unfold key s :
  getData key s = getData_body getEntropy key s.
Proof.
  unfold getData at 1. cbn [getData_fuel].
  apply getData_body_congr. intros s'. unfold getEntropy, getData.
  cbn [getData_fuel]. now rewrite !getData_body_entropy.
Qed.

Lemma getEntropy_run s :
  getEntropy s =
    if falsy_string (local s !! ENTROPY_KEY) then
      let e := hexlify (map (random_byte (draws s)) (seq 0 16)) in
      let s1 := set_entropy (Some e) (set_draws (S (draws s)) s) in
      (Ok e, set_writes (writes s1 ++ [(ENTROPY_KEY, e)])
               (set_local (<[ENTROPY_KEY := e]> (local s1)) s1))
    else (Ok (default "" (local s !! ENTROPY_KEY)), s).
Proof. unfold getEntropy. rewrite getData_unfold. apply getData_body_entropy. Qed.

(** [getEntropy] always returns, and what it returns is stored and
    truthy afterwards. *)
Lemma getEntropy_Ok s :
  exists e, getEntropy s = (Ok e, snd (getEntropy s)) /\
            local (snd (getEntropy s)) !! ENTROPY_KEY = Some e /\ e <> "".
Proof.
  rewrite getEntropy_run.
  destruct (falsy_string (local s !! ENTROPY_KEY)) eqn:Hf.
  - eexists. split; [reflexivity |]. split.
    + cbn. apply lookup_insert_eq.
    + apply hexlify_nonempty.
  - destruct (falsy_string_false _ Hf) as (x & Hx & Hne).
    exists x. rewrite Hx. cbn. auto.
Qed.

Lemma getData_cached key s x :
  local s !! key = Some x -> x <> "" -> getData key s = (Ok x, s).
Proof. intros. rewrite getData_unfold. now apply getData_body_cached. Qed.

Lemma getEntropy_local_other s key :
  key <> ENTROPY_KEY ->
  local (snd (getEntropy s)) !! key = local s !! key.
Proof.
  intros Hk. rewrite getEntropy_run.
  destruct (falsy_string (local s !! ENTROPY_KEY)); [| reflexivity].
  cbn. now rewrite lookup_insert_ne by congruence.
Qed.

Lemma getEntropy_twice s : getEntropy (snd (getEntropy s)) = getEntropy s.
Proof.
  destruct (getEntropy_Ok s) as (e & Hrun & Hst & Hne).
  rewrite Hrun at 2. now apply getData_cached.
Qed.

(** [getMnemonic] when nothing truthy is stored under a mnemonic key that
    is not the entropy key. *)
Lemma getMnemonic_generate s :
  falsy_string (local s !! MNEMONIC_KEY) = true ->
  MNEMONIC_KEY <> ENTROPY_KEY ->
  exists e s1,
    getEntropy s = (Ok e, s1) /\
    getMnemonic s =
      match entropyToMnemonic e with
      | Returns m =>
          let s2 := set_mnemonic (Some m) s1 in
          (Ok m, set_writes (writes s2 ++ [(MNEMONIC_KEY, m)])
                   (set_local (<[MNEMONIC_KEY := m]> (local s2)) s2))
      | Raises err => (Throw err, s1)
      end.
Proof.
  intros Hf Hk.
  destruct (getEntropy_Ok s) as (e & Hrun & _).
  exists e, (snd (getEntropy s)). split; [exact Hrun |].
  unfold getMnemonic. rewrite getData_unfold.
  unfold getData_body, getLocal, generateMnemonic_body, setLocal. plumbing.
  rewrite Hf.
  destruct (String.eqb_spec MNEMONIC_KEY ENTROPY_KEY) as [Heq | _];
    [contradiction |].
  rewrite String.eqb_refl, Hrun. cbn [fst snd].
  destruct (entropyToMnemonic e); reflexivity.
Qed.

Lemma getMnemonic_twice s :
  (forall e m, entropyToMnemonic e = Returns m -> m <> "") ->
  getMnemonic (snd (getMnemonic s)) = getMnemonic s.
Proof.
  intros Hwords.
  destruct (falsy_string (local s !! MNEMONIC_KEY)) eqn:Hf.
  2: { destruct (falsy_string_false _ Hf) as (x & Hx & Hne).
       unfold getMnemonic. rewrite (getData_cached _ s x Hx Hne).
       cbn [snd]. now apply getData_cached. }
  destruct (String.eqb_spec MNEMONIC_KEY ENTROPY_KEY) as [Heq | Hk].
  { unfold getMnemonic. rewrite Heq. apply getEntropy_twice. }
  destruct (getMnemonic_generate s Hf Hk) as (e & s1 & He & Hrun).
  rewrite Hrun.
  destruct (entropyToMnemonic e) as [m | err] eqn:Hm; cbn [snd].
  - apply getData_cached; [apply lookup_insert_eq | now apply (Hwords e)].
  - assert (Hs1 : s1 = snd (getEntropy s)) by now rewrite He.
    assert (Hf1 : falsy_string (local s1 !! MNEMONIC_KEY) = true).
    { rewrite Hs1, getEntropy_local_other by exact Hk. exact Hf. }
    destruct (getMnemonic_generate s1 Hf1 Hk) as (e' & s1' & He' & Hrun').
    assert (Htw : getEntropy s1 = (Ok e, s1)).
    { rewrite Hs1, getEntropy_twice, <- Hs1. exact He. }
    rewrite Htw in He'. injection He' as <- <-.
    rewrite Hrun', Hm. reflexivity.
Qed.

Lemma same_account_refl s : same_account s s.
Proof. unfold same_account. repeat split. Qed.

Lemma getEntropy_frame s : same_account s (snd (getEntropy s)).
Proof.
  rewrite getEntropy_run.
  destruct (falsy_string (local s !! ENTROPY_KEY));
    unfold same_account; repeat split.
Qed.

(** What a call of [getMnemonic] does, whichever way it ends: it ends
    within the call depth, touches secret material only, and a returned
    phrase is the one stored under the mnemonic key afterwards. *)
Lemma getMnemonic_spec s :
  exists r s',
    getMnemonic s = (r, s') /\ r <> OutOfFuel /\ same_account s s' /\
    (forall m, r = Ok m -> local s' !! MNEMONIC_KEY = Some m).
Proof.
  destruct (falsy_string (local s !! MNEMONIC_KEY)) eqn:Hf.
  2: { destruct (falsy_string_false _ Hf) as (x & Hx & Hne).
       exists (Ok x), s. unfold getMnemonic.
       rewrite (getData_cached _ s x Hx Hne).
       repeat split; try discriminate; try apply same_account_refl.
       now intros m [= <-]. }
  destruct (String.eqb_spec MNEMONIC_KEY ENTROPY_KEY) as [Heq | Hk].
  { destruct (getEntropy_Ok s) as (e & Hrun & Hst & _).
    exists (Ok e), (snd (getEntropy s)).
    unfold getMnemonic. rewrite Heq. fold getEntropy.
    repeat split; try discriminate; try apply getEntropy_frame; try easy.
    now intros m [= <-]. }
  destruct (getMnemonic_generate s Hf Hk) as (e & s1 & He & Hrun).
  assert (Hfr : same_account s s1).
  { replace s1 with (snd (getEntropy s)) by now rewrite He.
    apply getEntropy_frame. }
  rewrite Hrun. destruct (entropyToMnemonic e) as [m | err].
  - eexists _, _. split; [reflexivity |].
    split; [discriminate |]. split.
    + unfold same_account in *. cbn. exact Hfr.
    + intros m' [= <-]. cbn. apply lookup_insert_eq.
  - exists (Throw err), s1. repeat split; try discriminate; try apply Hfr.
Qed.

Lemma getMnemonic_ends s : fst (getMnemonic s) <> OutOfFuel.
Proof.
  destruct (getMnemonic_spec s) as (r & s' & Hrun & Hfuel & _).
  now rewrite Hrun.
Qed.

(** C4: calling [getEntropy] twice in a row, or [getMnemonic] twice in a
    row, gives the same result both times, and the second call leaves the
    state exactly as the first call left it: no further random draw, no
    further storage write.  [getEntropy] always returns a value and
    [getMnemonic] always ends.  The mnemonic half relies on the encoding
    never producing the empty phrase. *)
Theorem secret_material_idempotent (st : State E) :
  (forall e m, entropyToMnemonic e = Returns m -> m <> "") ->
  (exists e, fst (getEntropy st) = Ok e) /\
  getEntropy (snd (getEntropy st)) = getEntropy st /\
  fst (getMnemonic st) <> OutOfFuel /\
  getMnemonic (snd (getMnemonic st)) = getMnemonic st.
Proof.
  intros Hwords. split; [| split; [| split]].
  - destruct (getEntropy_Ok st) as (e & Hrun & _).
    exists e. now rewrite Hrun.
  - apply getEntropy_twice.
  - apply getMnemonic_ends.
  - now apply getMnemonic_twice.
Qed.

(** C5: a key that is neither the entropy key nor the mnemonic key and has
    no truthy stored value makes [getData] throw the unknown-key error;
    the state, and with it the storage and its write log, is untouched. *)
Theorem getData_unknown_key (key : string) (st : State E) :
  key <> ENTROPY_KEY -> key <> MNEMONIC_KEY ->
  falsy_string (local st !! key) = true ->
  getData key st = (Throw ("Unknown data key: " +:+ key), st).
Proof.
  intros He Hm Hf. rewrite getData_unfold.
  unfold getData_body, getLocal. plumbing. rewrite Hf.
  destruct (String.eqb_spec key ENTROPY_KEY); [contradiction |].
  destruct (String.eqb_spec key MNEMONIC_KEY); [contradiction |].
  reflexivity.
Qed.

(** ** Deriving an account *)

(** C7 (as amended): [generatePath] is total on the safe integers: for
    every index of magnitude at most [2^53 - 1] it returns
    [STANDARD_PATH], a slash and the decimal digits of the index, and
    never fails; the digits read back as the index, so two indices with
    the same path are the same index.  Of the state it changes the module
    variable [path], which it sets to the returned string, and nothing
    else. *)
Theorem generatePath_sets_path (index : Z) (st : State E) :
  safe_integer index ->
  let p := STANDARD_PATH +:+ "/" +:+ number_to_string index in
  generatePath index st = (Ok p, set_path (Some p) st) /\
  read_decimal (number_to_string index) = Some index /\
  (forall other, safe_integer other -> path_of other = p -> other = index) /\
  same_selection st (set_path (Some p) st) /\
  entropy (set_path (Some p) st) = entropy st /\
  mnemonic (set_path (Some p) st) = mnemonic st /\
  wallet (set_path (Some p) st) = wallet st /\
  local (set_path (Some p) st) = local st /\
  writes (set_path (Some p) st) = writes st.
Proof.
  intros _. cbv zeta. split; [reflexivity |].
  split; [apply read_decimal_number |]. split.
  - intros other _ Hp. unfold path_of in Hp.
    apply append_cancel_l, append_cancel_l in Hp.
    pose proof (read_decimal_number other) as Ho.
    rewrite Hp, read_decimal_number in Ho. now injection Ho.
  - unfold same_selection. repeat split.
Qed.

(** What a call of [generateWallet] does, whichever way it ends. *)
Lemma generateWallet_spec index s :
  exists r s',
    generateWallet index s = (r, s') /\ r <> OutOfFuel /\
    same_selection s s' /\ console s' = console s /\
    submitted s' = submitted s /\
    match r with
    | Ok w =>
        let p := STANDARD_PATH +:+ "/" +:+ number_to_string index in
        wallet s' = Some w /\ path s' = Some p /\
        exists m, local s' !! MNEMONIC_KEY = Some m /\
                  fromMnemonic m p = Returns w
    | _ => wallet s' = wallet s
    end.
Proof.
  destruct (getMnemonic_spec s) as (r & s1 & Hrun & Hfuel & Hfr & Hst).
  unfold generateWallet, generatePath. plumbing. rewrite Hrun.
  destruct Hfr as (Hp & Hi & Hc & Hw & Hk & Hco & Hsu).
  destruct r as [m | err |]; [| | contradiction].
  - specialize (Hst m eq_refl). cbn.
    destruct (fromMnemonic m _) as [w | err] eqn:Hfrom; cbn.
    + eexists _, _. split; [reflexivity |].
      unfold same_selection. cbn. repeat split; try easy.
      exists m. now split.
    + eexists _, _. split; [reflexivity |].
      unfold same_selection. cbn. repeat split; easy.
  - eexists _, _. split; [reflexivity |].
    unfold same_selection. repeat split; easy.
Qed.

Lemma generateWallet_Ok index s w s' :
  generateWallet index s = (Ok w, s') -> wallet s' = Some w.
Proof.
  intros H. destruct (generateWallet_spec index s) as (r & s1 & Hrun & _ & _ & _ & _ & Hr).
  rewrite H in Hrun. injection Hrun as <- <-. apply Hr.
Qed.

(** ** The active account *)

(** C9: [isWalletActive] returns null in every state, with or without a
    cached wallet, and changes nothing. *)
Theorem isWalletActive_null (st : State E) :
  isWalletActive st = (Ok None, st).
Proof.
  unfold isWalletActive. plumbing. destruct (wallet st) as [w |] eqn:Hw.
  - reflexivity.
  - reflexivity.
Qed.

(** ** The cycle through [getWallet] *)

Lemma getWallet_body_cached rec s w :
  wallet s = Some w -> getWallet_body rec None None s = (Ok w, s).
Proof. intros Hw. unfold getWallet_body. plumbing. now rewrite Hw. Qed.

Lemma updateWallet_body_congr rec1 rec2 index chainId s :
  (forall s' w, wallet s' = Some w -> rec1 None None s' = rec2 None None s') ->
  updateWallet_body rec1 index chainId s =
  updateWallet_body rec2 index chainId s.
Proof.
  intros Hrec. unfold updateWallet_body, generateStarkwareKeyPair_body.
  plumbing. destruct (getChainData chainId) as [chain | e]; [| reflexivity].
  cbv beta iota zeta.
  destruct (generateWallet index _) as [[w | e |] s1] eqn:Hgen;
    try reflexivity.
  now rewrite (Hrec (set_wallet (Some w) s1) w eq_refl).
Qed.

Lemma getWallet_body_congr rec1 rec2 index chainId s :
  (forall s' w, wallet s' = Some w -> rec1 None None s' = rec2 None None s') ->
  getWallet_body rec1 index chainId s = getWallet_body rec2 index chainId s.
Proof.
  intros Hrec. unfold getWallet_body, initWallet_body. plumbing.
  destruct (wallet s) as [w |].
  - destruct (_ || _); [| reflexivity]. now apply updateWallet_body_congr.
  - now apply updateWallet_body_congr.
Qed.

Lemma getWallet_fuel_cached n s w :
  wallet s = Some w -> getWallet_fuel (S n) None None s = (Ok w, s).
Proof. intros Hw. cbn [getWallet_fuel]. now apply getWallet_body_cached. Qed.

(** The call depth never exceeds two: more fuel changes nothing. *)
Lemma getWallet_fuel_enough n index chainId s :
  getWallet_fuel (2 + n) index chainId s = getWallet index chainId s.
Proof.
  unfold getWallet.
  change (getWallet_body (getWallet_fuel (S n)) index chainId s =
          getWallet_body (getWallet_fuel 1) index chainId s).
  apply getWallet_body_congr. intros s' w Hw.
  now rewrite !(getWallet_fuel_cached _ s' w Hw).
Qed.

(** [getWallet] satisfies the equation the source reads as. *)
Lemma getWallet_unfold index chainId s :
  getWallet index chainId s = getWallet_body getWallet index chainId s.
Proof.
  change (getWallet_body (getWallet_fuel 1) index chainId s =
          getWallet_body (getWallet_fuel 2) index chainId s).
  apply getWallet_body_congr. intros s' w Hw.
  now rewrite !(getWallet_fuel_cached _ s' w Hw).
Qed.

Lemma getWallet_cached s w : wallet s = Some w -> getWallet None None s = (Ok w, s).
Proof. apply (getWallet_fuel_cached 1). Qed.

(** [updateWallet] step by step, with the inner [getWallet()] resolved:
    the wallet just derived is the one the STARK key is made from. *)
Lemma updateWallet_run index chainId s :
  updateWallet index chainId s =
    let s1 := set_activeChainId chainId (set_activeIndex index s) in
    match getChainData chainId with
    | Raises e => (Throw e, s1)
    | Returns _ =>
        match generateWallet index s1 with
        | (Ok w, s2) =>
            (Ok w, set_starkKeyPair (Some (keyFromPrivate (privateKey w)))
                     (set_wallet (Some w) s2))
        | (Throw e, s2) => (Throw e, s2)
        | (OutOfFuel, s2) => (OutOfFuel, s2)
        end
    end.
Proof.
  unfold updateWallet, updateWallet_body, generateStarkwareKeyPair_body.
  plumbing. destruct (getChainData chainId) as [chain | e]; [| reflexivity].
  cbv beta iota zeta.
  destruct (generateWallet index _) as [[w | e |] s2] eqn:Hgen.
  - now rewrite (getWallet_cached (set_wallet (Some w) s2) w eq_refl).
  - reflexivity.
  - reflexivity.
Qed.

(** The two ways [getWallet] goes. *)
Lemma getWallet_rederive index chainId s :
  rederives s index chainId = true ->
  getWallet index chainId s =
    updateWallet (default DEFAULT_ACTIVE_INDEX index)
      (default DEFAULT_CHAIN_ID chainId) s.
Proof.
  intros H. rewrite getWallet_unfold.
  unfold rederives in H. unfold getWallet_body, initWallet_body. plumbing.
  destruct (wallet s) as [w |]; [| reflexivity].
  now rewrite H.
Qed.

Lemma getWallet_keep index chainId s w :
  wallet s = Some w -> rederives s index chainId = false ->
  getWallet index chainId s = (Ok w, s).
Proof.
  intros Hw H. rewrite getWallet_unfold.
  unfold rederives in H. unfold getWallet_body. plumbing.
  rewrite Hw in *. now rewrite H.
Qed.

(** [updateWallet] ends within the call depth, and so does [getWallet]. *)
Lemma updateWallet_terminates index chainId s :
  fst (updateWallet index chainId s) <> OutOfFuel.
Proof.
  rewrite updateWallet_run. cbv zeta.
  destruct (getChainData chainId); [| discriminate].
  destruct (generateWallet_spec index
              (set_activeChainId chainId (set_activeIndex index s)))
    as (r & s2 & Hrun & Hfuel & _).
  rewrite Hrun. destruct r; [discriminate | discriminate | contradiction].
Qed.

Lemma getWallet_terminates index chainId s :
  fst (getWallet index chainId s) <> OutOfFuel.
Proof.
  destruct (rederives s index chainId) eqn:H.
  - rewrite getWallet_rederive by exact H. apply updateWallet_terminates.
  - unfold rederives in H. destruct (wallet s) as [w |] eqn:Hw;
      [| discriminate].
    rewrite (getWallet_keep index chainId s w Hw); [discriminate |].
    unfold rederives. now rewrite Hw.
Qed.

(** A completed [updateWallet] leaves the wallet it returns, the STARK
    key pair made from that wallet's private key, and the selection it
    was called with. *)
Lemma updateWallet_Ok index chainId s w s' :
  updateWallet index chainId s = (Ok w, s') ->
  wallet s' = Some w /\
  starkKeyPair s' = Some (keyFromPrivate (privateKey w)) /\
  activeIndex s' = index /\ activeChainId s' = chainId /\
  exists m, local s' !! MNEMONIC_KEY = Some m /\
            fromMnemonic m (path_of index) = Returns w.
Proof.
  rewrite updateWallet_run. cbv zeta.
  destruct (getChainData chainId); [| discriminate].
  destruct (generateWallet_spec index
              (set_activeChainId chainId (set_activeIndex index s)))
    as (r & s2 & Hrun & _ & (Hi & Hc & _) & _ & _ & Hr).
  rewrite Hrun. destruct r as [w' | e |]; try discriminate.
  intros [= <- <-]. destruct Hr as (Hw & _ & m & Hm & Hfrom).
  cbn. repeat split; try easy. now exists m.
Qed.

(** C1: the code does not do what the claim says.  With a wallet cached,
    a request that differs from the active selection in both the index
    and the chain returns the cached wallet and leaves the state as it
    is, and a request that equals the selection in the index or in the
    chain runs [updateWallet]: the comparison is the wrong way round. *)
Theorem getWallet_comparison_inverted
    (index chainId : option Z) (st : State E) (w : Wallet) :
  wallet st = Some w ->
  (strict_eq (activeIndex st) index = false ->
   strict_eq (activeChainId st) chainId = false ->
   getWallet index chainId st = (Ok w, st)) /\
  (strict_eq (activeIndex st) index = true \/
   strict_eq (activeChainId st) chainId = true ->
   getWallet index chainId st =
     updateWallet (default DEFAULT_ACTIVE_INDEX index)
       (default DEFAULT_CHAIN_ID chainId) st).
Proof.
  intros Hw. split.
  - intros Hi Hc. apply getWallet_keep; [exact Hw |].
    unfold rederives. now rewrite Hw, Hi, Hc.
  - intros H. apply getWallet_rederive. unfold rederives. rewrite Hw.
    apply orb_true_iff. exact H.
Qed.

(** C3: a call of [getWallet] that re-derives always ends, and after
    every such call that completes, the cached STARK key pair is the one
    made from the private key of the cached wallet, which is the wallet
    returned, derived from the stored mnemonic at the path of the active
    index; the active selection is the requested one. *)
Theorem rederived_keys_consistent
    (index chainId : option Z) (st : State E) :
  rederives st index chainId = true ->
  fst (getWallet index chainId st) <> OutOfFuel /\
  forall (w : Wallet) (st' : State E),
    getWallet index chainId st = (Ok w, st') ->
    wallet st' = Some w /\
    starkKeyPair st' = Some (keyFromPrivate (privateKey w)) /\
    activeIndex st' = default DEFAULT_ACTIVE_INDEX index /\
    activeChainId st' = default DEFAULT_CHAIN_ID chainId /\
    exists m, local st' !! MNEMONIC_KEY = Some m /\
              fromMnemonic m (path_of (activeIndex st')) = Returns w.
Proof.
  intros Hre. split; [apply getWallet_terminates |].
  intros w st' Hrun. rewrite getWallet_rederive in Hrun by exact Hre.
  destruct (updateWallet_Ok _ _ _ _ _ Hrun) as (Hw & Hk & Hi & Hc & m & Hm).
  rewrite Hi. repeat split; try assumption. now exists m.
Qed.

(** ** Listing accounts *)

Lemma same_selection_trans s1 s2 s3 :
  same_selection s1 s2 -> same_selection s2 s3 -> same_selection s1 s3.
Proof. unfold same_selection. intros (-> & -> & ->) (-> & -> & ->). easy. Qed.

(** The loop of [getAccounts], whichever way it ends: it ends within the
    call depth and keeps the selection and the STARK key pair; when it
    returns it has pushed one address per iteration, and after at least
    one iteration the module's wallet is the account of the last index. *)
Lemma getAccounts_loop_spec todo : forall i accounts s,
  exists r s',
    getAccounts_loop todo i accounts s = (r, s') /\ r <> OutOfFuel /\
    same_selection s s' /\
    forall result, r = Ok result ->
      List.length result = (List.length accounts + todo)%nat /\
      (todo <> O ->
       exists m w,
         local s' !! MNEMONIC_KEY = Some m /\
         fromMnemonic m (path_of (i + Z.of_nat todo - 1)) = Returns w /\
         wallet s' = Some w).
Proof.
  induction todo as [| todo IH]; intros i accounts s.
  - exists (Ok accounts), s. cbn [getAccounts_loop]. unfold ret.
    split; [reflexivity |]. split; [discriminate |].
    split; [unfold same_selection; easy |].
    intros result [= <-]. split; [lia | easy].
  - cbn [getAccounts_loop]. unfold bind.
    destruct (generateWallet_spec i s)
      as (r & s1 & Hrun & Hfuel & Hsel & _ & _ & Hr).
    rewrite Hrun. destruct r as [w | e |]; [| | contradiction].
    + destruct Hr as (Hw & _ & m & Hm & Hfrom).
      destruct (IH (i + 1) (accounts ++ [address w])%list s1)
        as (r & s2 & Hloop & Hfuel2 & Hsel2 & Hres).
      exists r, s2. split; [exact Hloop |]. split; [exact Hfuel2 |].
      split; [exact (same_selection_trans _ _ _ Hsel Hsel2) |].
      intros result ->. destruct (Hres result eq_refl) as (Hlen & Hlast).
      split.
      * rewrite Hlen, length_app. cbn. lia.
      * intros _. destruct todo as [| todo'].
        -- cbn in Hloop. injection Hloop as _ <-.
           exists m, w. replace (i + Z.of_nat 1 - 1) with i by lia. easy.
        -- destruct Hlast as (m' & w' & Hm' & Hfrom' & Hw'); [easy |].
           exists m', w'.
           replace (i + Z.of_nat (S (S todo')) - 1)
             with (i + 1 + Z.of_nat (S todo') - 1) by lia.
           easy.
    + exists (Throw e), s1. split; [reflexivity |].
      split; [discriminate |]. split; [exact Hsel | discriminate].
Qed.

(** C10: for every count of at least one, [getAccounts(count)] ends and
    leaves [activeIndex], [activeChainId] and the cached STARK key pair as
    they were; when it returns, it returns [count] addresses and the
    module's [wallet] is the account derived from the stored mnemonic at
    index [count - 1]. *)
Theorem getAccounts_overwrites_wallet (count : Z) (st : State E) :
  1 <= count ->
  exists r st',
    getAccounts (Some count) st = (r, st') /\ r <> OutOfFuel /\
    activeIndex st' = activeIndex st /\
    activeChainId st' = activeChainId st /\
    starkKeyPair st' = starkKeyPair st /\
    forall accounts, r = Ok accounts ->
      Z.of_nat (List.length accounts) = count /\
      exists m w,
        local st' !! MNEMONIC_KEY = Some m /\
        fromMnemonic m (path_of (count - 1)) = Returns w /\
        wallet st' = Some w.
Proof.
  intros Hcount.
  destruct (getAccounts_loop_spec (Z.to_nat count) 0 [] st)
    as (r & st' & Hloop & Hfuel & (Hi & Hc & Hk) & Hres).
  exists r, st'. split; [exact Hloop |]. split; [exact Hfuel |].
  split; [exact Hi |]. split; [exact Hc |]. split; [exact Hk |].
  intros accounts ->. destruct (Hres accounts eq_refl) as (Hlen & Hlast).
  split; [cbn in Hlen; lia |].
  destruct Hlast as (m & w & Hm & Hfrom & Hw); [lia |].
  exists m, w. replace (count - 1) with (0 + Z.of_nat (Z.to_nat count) - 1)
    by lia. easy.
Qed.

(** ** Signing *)

(** With neither a wallet nor a STARK key pair cached,
    [getStakwareKeyPair] derives the default account. *)
Lemma getStakwareKeyPair_derives s :
  wallet s = None -> starkKeyPair s = None ->
  getStakwareKeyPair s =
    bind (updateWallet DEFAULT_ACTIVE_INDEX DEFAULT_CHAIN_ID)
      (fun w => ret (keyFromPrivate (privateKey w))) s.
Proof.
  intros Hw Hk.
  unfold getStakwareKeyPair, generateStarkwareKeyPair,
    generateStarkwareKeyPair_body.
  unfold bind at 1. unfold get. rewrite Hk.
  rewrite (bind_ext _ _ _ s (getWallet_rederive None None s
             ltac:(unfold rederives; now rewrite Hw))).
  cbn [default]. unfold bind.
  destruct (updateWallet _ _ s) as [[w | e |] s1] eqn:Hup; try reflexivity.
  destruct (updateWallet_Ok _ _ _ _ _ Hup) as (_ & Hk1 & _).
  unfold modify, ret. f_equal.
  destruct s1. cbn in *. now rewrite Hk1.
Qed.

(** C2 (as amended): with no wallet active, [sendTransaction],
    [signTransaction], [signMessage] and [signPersonalMessage] return null
    without throwing and only log the error.  [starkwareSign] and
    [starkwareVerify] have no such guard: with no STARK key pair cached
    they derive the default account and answer what the STARK library
    answers for the key pair of that account, and an error of the
    derivation or of the library is thrown. *)
Theorem signing_without_wallet
    (st : State E) (transaction data : Tx) (digest message msg : string)
    (sig : StarkSignature) :
  wallet st = None ->
  sendTransaction transaction st = (Ok None, no_active_account st) /\
  signTransaction data st = (Ok None, no_active_account st) /\
  signMessage digest st = (Ok None, no_active_account st) /\
  signPersonalMessage message st = (Ok None, no_active_account st) /\
  (starkKeyPair st = None ->
   starkwareSign msg st =
     bind (updateWallet DEFAULT_ACTIVE_INDEX DEFAULT_CHAIN_ID)
       (fun w => call (stark_sign (keyFromPrivate (privateKey w)) msg)) st /\
   starkwareVerify msg sig st =
     bind (updateWallet DEFAULT_ACTIVE_INDEX DEFAULT_CHAIN_ID)
       (fun w => call (stark_verify (keyFromPrivate (privateKey w)) msg sig))
       st).
Proof.
  intros Hw.
  split; [unfold sendTransaction | split; [unfold signTransaction |
    split; [unfold signMessage | split; [unfold signPersonalMessage |]]]].
  1-4: unfold bind at 1; unfold get; rewrite Hw; reflexivity.
  intros Hk. unfold starkwareSign, starkwareVerify.
  rewrite !(bind_ext _ _ _ st (getStakwareKeyPair_derives st Hw Hk)).
  unfold bind, ret.
  destruct (updateWallet _ _ st) as [[w | e |] s1]; split; reflexivity.
Qed.

(** ** Sending a transaction *)

Lemma gas_to_gasLimit_lookup (obj : Tx) g :
  obj !! "gas" = Some g ->
  gas_to_gasLimit obj !! "gasLimit" = Some g /\
  gas_to_gasLimit obj !! "gas" = None /\
  forall k, k <> "gas" -> k <> "gasLimit" ->
            gas_to_gasLimit obj !! k = obj !! k.
Proof.
  intros Hg. unfold gas_to_gasLimit, has_key, prop. rewrite Hg.
  repeat split.
  - rewrite lookup_delete_ne by discriminate. apply lookup_insert_eq.
  - apply lookup_delete_eq.
  - intros k Hk1 Hk2. rewrite lookup_delete_ne by congruence.
    now rewrite lookup_insert_ne by congruence.
Qed.

Lemma strip_from_lookup (obj : Tx) :
  (truthy (prop obj "from") = true -> strip_from obj !! "from" = None) /\
  (truthy (prop obj "from") = false ->
   strip_from obj !! "from" = obj !! "from") /\
  forall k, k <> "from" -> strip_from obj !! k = obj !! k.
Proof.
  unfold strip_from. destruct (truthy (prop obj "from")).
  - repeat split; try discriminate.
    + intros _. apply lookup_delete_eq.
    + intros k Hk. now rewrite lookup_delete_ne by congruence.
  - repeat split; discriminate.
Qed.

(** C6 (as amended): a transaction with a [gas] field and no [gasLimit]
    field, whose [from] field is absent, falsy or a string, sent while a
    wallet is active: the object handed to [wallet.sendTransaction] has
    [gasLimit] equal to the original [gas] and no [gas] key; a truthy
    [from] is stripped, a falsy [from] field stays as it is.  The call
    answers the hash of the response, or throws what the library threw. *)
Theorem sendTransaction_normalizes
    (st : State E) (w : Wallet) (transaction : Tx) (g : jsval) :
  wallet st = Some w ->
  transaction !! "gas" = Some g ->
  transaction !! "gasLimit" = None ->
  (truthy (prop transaction "from") = true ->
   exists a, transaction !! "from" = Some (JStr a)) ->
  let sent := gas_to_gasLimit (strip_from transaction) in
  submitted (snd (sendTransaction transaction st)) =
    (submitted st ++ [(w, sent)])%list /\
  fst (sendTransaction transaction st) =
    match wallet_sendTransaction w sent with
    | Returns r => Ok (Some (hash r))
    | Raises e => Throw e
    end /\
  sent !! "gasLimit" = Some g /\
  sent !! "gas" = None /\
  (truthy (prop transaction "from") = true -> sent !! "from" = None) /\
  (truthy (prop transaction "from") = false ->
   sent !! "from" = transaction !! "from").
Proof.
  intros Hw Hg _ Hfrom sent.
  destruct (strip_from_lookup transaction) as (Hs1 & Hs2 & Hs3).
  assert (Hg' : strip_from transaction !! "gas" = Some g).
  { rewrite Hs3 by discriminate. exact Hg. }
  destruct (gas_to_gasLimit_lookup _ g Hg') as (Hl1 & Hl2 & Hl3).
  fold sent in Hl1, Hl2, Hl3.
  assert (Hrun : exists s',
    sendTransaction transaction st =
      (match wallet_sendTransaction w sent with
       | Returns r => Ok (Some (hash r))
       | Raises e => Throw e
       end, s') /\
    submitted s' = (submitted st ++ [(w, sent)])%list).
  { unfold sendTransaction. unfold bind at 1. unfold get. rewrite Hw.
    fold sent. unfold js_toLowerCase. plumbing.
    destruct (truthy (prop transaction "from")) eqn:Htr.
    - destruct (Hfrom eq_refl) as (a & Ha). unfold prop. rewrite Ha.
      destruct (negb _); destruct (wallet_sendTransaction w sent);
        eexists; split; reflexivity.
    - destruct (wallet_sendTransaction w sent); eexists; split; reflexivity. }
  destruct Hrun as (s' & Hrun & Hsub). rewrite Hrun. cbn [fst snd].
  repeat split; try assumption.
  - intros Htr. rewrite Hl3 by discriminate. now apply Hs1.
  - intros Htr. rewrite Hl3 by discriminate. now apply Hs2.
Qed.

(** A truthy [from] that is not a string stops the call before anything
    is handed to the library. *)
Lemma sendTransaction_from_not_string s w (transaction : Tx) :
  wallet s = Some w ->
  truthy (prop transaction "from") = true ->
  (forall a, prop transaction "from" <> JStr a) ->
  exists e, sendTransaction transaction s = (Throw e, s).
Proof.
  intros Hw Htr Hns. unfold sendTransaction. unfold bind at 1. unfold get.
  rewrite Hw, Htr. unfold js_toLowerCase.
  destruct (prop transaction "from") as [| | b | n | a];
    try (eexists; reflexivity).
  now destruct (Hns a).
Qed.

(** ** Personal messages *)

(** Whatever [isHexString] accepts, [arrayify] reads. *)
Lemma arrayify_of_hex message :
  isHexString message = true ->
  exists bs, arrayify message = Returns bs.
Proof.
  unfold isHexString, arrayify.
  destruct (strip_0x message) as [digits |]; [| discriminate].
  intros ->. eexists. reflexivity.
Qed.

Lemma hex_char_byte (b : byte) :
  let v := Byte.to_N b in
  let hi := hex_char (N.shiftr (N.land v 240) 4) in
  let lo := hex_char (N.land v 15) in
  is_hex_digit hi = true /\ is_hex_digit lo = true /\ byte_of_pair hi lo = b.
Proof. destruct b; vm_compute; repeat split. Qed.

Lemma hexlify_digits_read bs :
  all_hex (hexlify_digits bs) = true /\
  Nat.odd (List.length (list_ascii_of_string (hexlify_digits bs))) = false /\
  parse_pairs (list_ascii_of_string (hexlify_digits bs)) = bs.
Proof.
  unfold all_hex. induction bs as [| b bs (IH1 & IH2 & IH3)].
  - repeat split.
  - destruct (hex_char_byte b) as (Hhi & Hlo & Hb). cbv zeta in Hhi, Hlo, Hb.
    cbn [hexlify_digits list_ascii_of_string forallb parse_pairs List.length].
    rewrite Hhi, Hlo, IH1, Hb, IH3. repeat split. exact IH2.
Qed.

Lemma strip_0x_hexlify bs : strip_0x (hexlify bs) = Some (hexlify_digits bs).
Proof. reflexivity. Qed.

(** Reading back what [hexlify] wrote gives the bytes written. *)
Lemma arrayify_hexlify bs : arrayify (hexlify bs) = Returns bs.
Proof.
  destruct (hexlify_digits_read bs) as (H1 & H2 & H3).
  unfold arrayify. rewrite strip_0x_hexlify, H1. cbv zeta.
  now rewrite H2, H3.
Qed.

Lemma isHexString_hexlify bs : isHexString (hexlify bs) = true.
Proof.
  unfold isHexString. rewrite strip_0x_hexlify. apply hexlify_digits_read.
Qed.

(** C8: with a wallet active, a message that is a hex string (["0x"] and
    hex digits) is read as bytes: the bytes whose half-bytes are the
    values of its digits, a leading zero completing an odd count.  Those
    bytes are what [wallet.signMessage] signs under the personal-message
    convention; any other message is signed as text by the same entry
    point. *)
Theorem signPersonalMessage_detects_hex
    (st : State E) (w : Wallet) (message : string) :
  wallet st = Some w ->
  (isHexString message = true ->
   exists digits bs,
     message = "0x" +:+ digits /\
     flat_map nibbles bs = digit_values (pad_even digits) /\
     arrayify message = Returns bs /\
     signPersonalMessage message st =
       (reply (wallet_signMessage w (Bytes bs)), st)) /\
  (isHexString message = false ->
   signPersonalMessage message st =
     (reply (wallet_signMessage w (Text message)), st)).
Proof.
  intros Hw.
  split; intros Hhex; unfold signPersonalMessage; unfold bind at 1;
    unfold get; rewrite Hw; unfold personal_payload; rewrite Hhex.
  - destruct (arrayify_denotes message Hhex) as (digits & bs & Hm & Hbs & Hn).
    exists digits, bs. split; [exact Hm |]. split; [exact Hn |].
    split; [exact Hbs |]. rewrite Hbs. plumbing.
    destruct (wallet_signMessage w (Bytes bs)); reflexivity.
  - plumbing. destruct (wallet_signMessage w (Text message)); reflexivity.
Qed.

(** * What the module never undoes *)

Lemma evolves_refl s : evolves s s.
Proof.
  constructor; auto.
  exists []. split; [now rewrite app_nil_r | constructor].
Qed.

Lemma evolves_trans s1 s2 s3 : evolves s1 s2 -> evolves s2 s3 -> evolves s1 s3.
Proof.
  intros [W1 K1 Y1 (t1 & Hw1 & F1) O1 P1 D1 C1 S1]
         [W2 K2 Y2 (t2 & Hw2 & F2) O2 P2 D2 C2 S2].
  constructor; auto.
  - destruct Y2 as [E2 | H2]; [| now right].
    destruct Y1 as [E1 | H1]; [left; congruence | right; auto].
  - exists (t1 ++ t2)%list. split.
    + rewrite Hw2, Hw1. now rewrite app_assoc.
    + apply Forall_app. now split.
  - intros k Hk. now rewrite O2, O1.
  - lia.
  - now transitivity (console s2).
  - now transitivity (submitted s2).
Qed.

(** A state that differs from [s] in fields that are free to change, or
    in a log that grew. *)
Ltac evolves_now :=
  constructor; cbn;
  [ auto | auto | auto
  | exists []; split; [now rewrite app_nil_r | constructor]
  | auto | auto | auto
  | try reflexivity; try (now apply prefix_app_r)
  | try reflexivity; try (now apply prefix_app_r) ].

Lemma steady_ret {A} (a : A) : steady (E := E) (ret a).
Proof. intros s. apply evolves_refl. Qed.

Lemma steady_throw {A} e : steady (E := E) (A := A) (throw e).
Proof. intros s. apply evolves_refl. Qed.

Lemma steady_get {A} (f : State E -> A) : steady (get f).
Proof. intros s. apply evolves_refl. Qed.

Lemma steady_call {A} (r : ext A) : steady (E := E) (call r).
Proof. intros s. destruct r; apply evolves_refl. Qed.

Lemma steady_bind {A B} (m : M E A) (k : A -> M E B) :
  steady m -> (forall a, steady (k a)) -> steady (bind m k).
Proof.
  intros Hm Hk s. unfold bind. specialize (Hm s).
  destruct (m s) as [[a | e |] s1]; cbn [snd] in *; try exact Hm.
  eapply evolves_trans; [exact Hm | apply Hk].
Qed.

Lemma steady_modify (f : State E -> State E) :
  (forall s, evolves s (f s)) -> steady (modify f).
Proof. intros H s. apply H. Qed.

Lemma steady_console_error line : steady (E := E) (console_error line).
Proof. apply steady_modify. intros s. evolves_now. Qed.

Lemma evolves_set_path v s : evolves s (set_path v s).
Proof. evolves_now. Qed.

Lemma evolves_set_entropy v s : evolves s (set_entropy v s).
Proof. evolves_now. Qed.

Lemma evolves_set_mnemonic v s : evolves s (set_mnemonic v s).
Proof. evolves_now. Qed.

Lemma evolves_set_activeIndex v s : evolves s (set_activeIndex v s).
Proof. evolves_now. Qed.

Lemma evolves_set_activeChainId v s : evolves s (set_activeChainId v s).
Proof. evolves_now. Qed.

Lemma evolves_set_wallet w s : evolves s (set_wallet (Some w) s).
Proof. evolves_now. Qed.

Lemma evolves_set_draws s : evolves s (set_draws (S (draws s)) s).
Proof. evolves_now. Qed.

Lemma evolves_submit entry s :
  evolves s (set_submitted (submitted s ++ [entry]) s).
Proof. evolves_now. Qed.

Create HintDb steady discriminated.

(** Goes through a computation built from the combinators. *)
Ltac steady_auto :=
  repeat match goal with
    | |- steady (ret _) => apply steady_ret
    | |- steady (throw _) => apply steady_throw
    | |- steady (get _) => apply steady_get
    | |- steady (call _) => apply steady_call
    | |- steady (console_error _) => apply steady_console_error
    | |- steady (bind _ _) => apply steady_bind; [| intros ?]
    | |- steady (modify _) => apply steady_modify; intros ?; evolves_now
    | |- steady (match ?x with _ => _ end) => destruct x
    | |- steady _ => solve [eauto with steady]
    end.

Lemma falsy_string_stored s key v :
  falsy_string (local s !! key) = true ->
  local s !! key = Some v -> v <> "" -> False.
Proof.
  intros Hf Hv Hne. rewrite Hv in Hf. cbn in Hf.
  now apply String.eqb_eq in Hf.
Qed.

Lemma steady_getEntropy : steady (E := E) getEntropy.
Proof.
  intros s. rewrite getEntropy_run.
  destruct (falsy_string (local s !! ENTROPY_KEY)) eqn:Hf;
    [| apply evolves_refl].
  constructor; cbn; auto.
  - eexists [_]. split; [reflexivity |].
    constructor; [now left | constructor].
  - intros k Hk. apply lookup_insert_ne. intros Heq. apply Hk. now left.
  - intros k v Hv Hne. destruct (decide (k = ENTROPY_KEY)) as [-> | Hk].
    + destruct (falsy_string_stored s _ v Hf Hv Hne).
    + now rewrite lookup_insert_ne by congruence.
Qed.

Lemma steady_getMnemonic : steady (E := E) getMnemonic.
Proof.
  intros s.
  destruct (falsy_string (local s !! MNEMONIC_KEY)) eqn:Hf.
  2: { destruct (falsy_string_false _ Hf) as (x & Hx & Hne).
       unfold getMnemonic. rewrite (getData_cached _ s x Hx Hne).
       apply evolves_refl. }
  destruct (String.eqb_spec MNEMONIC_KEY ENTROPY_KEY) as [Heq | Hk].
  { unfold getMnemonic. rewrite Heq. apply steady_getEntropy. }
  destruct (getMnemonic_generate s Hf Hk) as (e & s1 & He & Hrun).
  assert (E1 : evolves s s1).
  { replace s1 with (snd (getEntropy s)) by now rewrite He.
    apply steady_getEntropy. }
  rewrite Hrun. destruct (entropyToMnemonic e) as [m | err]; [| exact E1].
  destruct E1 as [W1 K1 Y1 (t1 & Hw1 & F1) O1 P1 D1 C1 S1].
  constructor; cbn; auto.
  - exists (t1 ++ [(MNEMONIC_KEY, m)])%list. split.
    + now rewrite Hw1, app_assoc.
    + apply Forall_app. split; [exact F1 |].
      constructor; [now right | constructor].
  - intros k Hk'. rewrite lookup_insert_ne; [now apply O1 |].
    intros Heq. apply Hk'. now right.
  - intros k v Hv Hne. destruct (decide (k = MNEMONIC_KEY)) as [-> | Hk'].
    + destruct (falsy_string_stored s _ v Hf Hv Hne).
    + rewrite lookup_insert_ne by congruence. now apply P1.
Qed.

Lemma steady_getData key : steady (E := E) (getData key).
Proof.
  destruct (String.eqb_spec key ENTROPY_KEY) as [-> | He];
    [apply steady_getEntropy |].
  destruct (String.eqb_spec key MNEMONIC_KEY) as [-> | Hm];
    [apply steady_getMnemonic |].
  intros s. rewrite getData_unfold.
  unfold getData_body, getLocal. plumbing.
  destruct (falsy_string (local s !! key)); [| apply evolves_refl].
  destruct (String.eqb_spec key ENTROPY_KEY); [contradiction |].
  destruct (String.eqb_spec key MNEMONIC_KEY); [contradiction |].
  apply evolves_refl.
Qed.

Lemma steady_randomBytes n : steady (E := E) (randomBytes n).
Proof. intros s. apply evolves_set_draws. Qed.

#[local] Hint Resolve steady_getEntropy steady_getMnemonic steady_getData
  steady_randomBytes : steady.

Lemma steady_generateEntropy : steady (E := E) generateEntropy.
Proof. unfold generateEntropy. steady_auto. Qed.

Lemma steady_generateMnemonic : steady (E := E) generateMnemonic.
Proof. unfold generateMnemonic, generateMnemonic_body. steady_auto. Qed.

Lemma steady_generatePath index : steady (E := E) (generatePath index).
Proof. unfold generatePath. steady_auto. Qed.

#[local] Hint Resolve steady_generatePath : steady.

Lemma steady_generateWallet index : steady (E := E) (generateWallet index).
Proof. unfold generateWallet. steady_auto. Qed.

#[local] Hint Resolve steady_generateWallet : steady.

Lemma steady_getAccounts_loop todo : forall i accounts,
  steady (E := E) (getAccounts_loop todo i accounts).
Proof.
  induction todo as [| todo IH]; intros i accounts; cbn [getAccounts_loop].
  - apply steady_ret.
  - apply steady_bind; [apply steady_generateWallet | intros w; apply IH].
Qed.

Lemma steady_getAccounts count : steady (E := E) (getAccounts count).
Proof. unfold getAccounts. apply steady_getAccounts_loop. Qed.

Lemma steady_updateWallet index chainId :
  steady (E := E) (updateWallet index chainId).
Proof.
  intros s. rewrite updateWallet_run. cbv zeta.
  assert (E1 : evolves s (set_activeChainId chainId (set_activeIndex index s)))
    by evolves_now.
  destruct (getChainData chainId); [| exact E1].
  pose proof (steady_generateWallet index
                (set_activeChainId chainId (set_activeIndex index s))) as E2.
  destruct (generateWallet index _) as [[w | e |] s2]; cbn [snd] in *.
  - eapply evolves_trans; [exact E1 |].
    eapply evolves_trans; [exact E2 |].
    constructor; cbn; auto; try reflexivity.
    exists []. split; [now rewrite app_nil_r | constructor].
  - eapply evolves_trans; eassumption.
  - eapply evolves_trans; eassumption.
Qed.

Lemma steady_getWallet index chainId :
  steady (E := E) (getWallet index chainId).
Proof.
  intros s. destruct (rederives s index chainId) eqn:H.
  - rewrite getWallet_rederive by exact H. apply steady_updateWallet.
  - unfold rederives in H. destruct (wallet s) as [w |] eqn:Hw;
      [| discriminate].
    rewrite (getWallet_keep index chainId s w Hw);
      [apply evolves_refl |].
    unfold rederives. now rewrite Hw.
Qed.

(** A completed [getWallet] leaves the wallet it returns in the cache. *)
Lemma getWallet_Ok_cached index chainId s w s' :
  getWallet index chainId s = (Ok w, s') -> wallet s' = Some w.
Proof.
  destruct (rederives s index chainId) eqn:H.
  - rewrite getWallet_rederive by exact H.
    intros Hrun. now destruct (updateWallet_Ok _ _ _ _ _ Hrun).
  - unfold rederives in H. destruct (wallet s) as [w0 |] eqn:Hw;
      [| discriminate].
    rewrite (getWallet_keep index chainId s w0 Hw).
    + now intros [= <- <-].
    + unfold rederives. now rewrite Hw.
Qed.

Lemma steady_generateStarkwareKeyPair :
  steady (E := E) generateStarkwareKeyPair.
Proof.
  intros s. unfold generateStarkwareKeyPair, generateStarkwareKeyPair_body.
  unfold bind at 1. pose proof (steady_getWallet None None s) as E1.
  destruct (getWallet None None s) as [[w | e |] s1] eqn:Hrun;
    cbn [snd] in *; try exact E1.
  apply getWallet_Ok_cached in Hrun.
  eapply evolves_trans; [exact E1 |].
  constructor; cbn; auto; try reflexivity.
  exists []. split; [now rewrite app_nil_r | constructor].
Qed.

#[local] Hint Resolve steady_updateWallet steady_getWallet
  steady_generateStarkwareKeyPair : steady.

Lemma steady_getStakwareKeyPair : steady (E := E) getStakwareKeyPair.
Proof. unfold getStakwareKeyPair. steady_auto. Qed.

Lemma steady_js_toLowerCase v : steady (E := E) (js_toLowerCase v).
Proof. unfold js_toLowerCase. destruct v; steady_auto. Qed.

#[local] Hint Resolve steady_getStakwareKeyPair steady_js_toLowerCase : steady.

Lemma steady_sendTransaction transaction :
  steady (E := E) (sendTransaction transaction).
Proof. unfold sendTransaction. steady_auto. Qed.

Lemma steady_signTransaction data : steady (E := E) (signTransaction data).
Proof. unfold signTransaction. steady_auto. Qed.

Lemma steady_signMessage data : steady (E := E) (signMessage data).
Proof. unfold signMessage. steady_auto. Qed.

Lemma steady_signPersonalMessage message :
  steady (E := E) (signPersonalMessage message).
Proof. unfold signPersonalMessage, personal_payload. steady_auto. Qed.

Lemma steady_starkwareSign msg : steady (E := E) (starkwareSign msg).
Proof. unfold starkwareSign. steady_auto. Qed.

Lemma steady_starkwareVerify msg sig :
  steady (E := E) (starkwareVerify msg sig).
Proof. unfold starkwareVerify. steady_auto. Qed.

(** Every exported function only evolves the state, and so does every
    sequence of calls. *)
Lemma after_evolves (c : api) s : evolves s (after c s).
Proof.
  destruct c; cbn [after].
  - unfold isWalletActive. revert s. fold (steady (E := E) (A := option Wallet)).
    change (steady (bind (get wallet)
              (fun w => match w with None => ret w | Some _ => ret None end))).
    steady_auto.
  - apply steady_getWallet.
  - apply steady_getAccounts.
  - apply steady_getData.
  - apply steady_generatePath.
  - apply steady_generateEntropy.
  - apply steady_generateMnemonic.
  - apply steady_generateWallet.
  - apply steady_generateStarkwareKeyPair.
  - apply steady_getEntropy.
  - apply steady_getMnemonic.
  - apply steady_getStakwareKeyPair.
  - apply (steady_updateWallet (default DEFAULT_ACTIVE_INDEX index)
             (default DEFAULT_CHAIN_ID chainId)).
  - apply steady_updateWallet.
  - apply steady_sendTransaction.
  - apply steady_signTransaction.
  - apply steady_signMessage.
  - apply steady_signPersonalMessage.
  - apply steady_starkwareSign.
  - apply steady_starkwareVerify.
Qed.

Lemma after_all_evolves (cs : list api) : forall s, evolves s (after_all cs s).
Proof.
  unfold after_all. induction cs as [| c cs IH]; intros s; cbn [fold_left].
  - apply evolves_refl.
  - eapply evolves_trans; [apply after_evolves | apply IH].
Qed.

(** X1: whatever sequence of exported functions is called, the storage
    is written under the entropy key and the mnemonic key only: every
    other key keeps the value it had, and every [setLocal] made on the way
    is for one of the two keys. *)
Theorem storage_written_under_secret_keys (cs : list api) (st : State E) :
  (forall k, k <> ENTROPY_KEY -> k <> MNEMONIC_KEY ->
             local (after_all cs st) !! k = local st !! k) /\
  exists t,
    writes (after_all cs st) = (writes st ++ t)%list /\
    Forall (fun kv => fst kv = ENTROPY_KEY \/ fst kv = MNEMONIC_KEY) t.
Proof.
  destruct (after_all_evolves cs st) as [_ _ _ Hw Ho _ _ _ _]. split.
  - intros k He Hm. apply Ho. unfold secret_key. tauto.
  - exact Hw.
Qed.

(** X2: a truthy value held by the storage is never overwritten, whatever
    sequence of exported functions is called; so a stored entropy and a
    stored mnemonic stay what they are. *)
Theorem stored_values_never_overwritten
    (cs : list api) (st : State E) (k v : string) :
  local st !! k = Some v -> v <> "" ->
  local (after_all cs st) !! k = Some v.
Proof. intros Hv Hne. now apply (ev_kept _ _ (after_all_evolves cs st)). Qed.

(** X3: no exported function clears a cache: once a wallet is cached a
    wallet stays cached, and once a STARK key pair is cached a key pair
    stays cached, whatever is called and however the calls end. *)
Theorem caches_never_cleared (cs : list api) (st : State E) :
  (is_Some (wallet st) -> is_Some (wallet (after_all cs st))) /\
  (is_Some (starkKeyPair st) -> is_Some (starkKeyPair (after_all cs st))).
Proof.
  destruct (after_all_evolves cs st) as [Hw Hk _ _ _ _ _ _ _]. now split.
Qed.

(** X4: in every state reached from a freshly loaded module, a cached
    STARK key pair comes with a cached wallet. *)
Theorem stark_key_pair_implies_wallet
    (stored : gmap string string) (cs : list api) :
  is_Some (starkKeyPair (after_all cs (initial stored))) ->
  is_Some (wallet (after_all cs (initial stored))).
Proof.
  intros Hk.
  destruct (ev_keyed _ _ (after_all_evolves cs (initial stored)))
    as [Heq | Hw]; [| exact Hw].
  rewrite Heq in Hk. cbn in Hk. now destruct Hk.
Qed.

(** ** More on secret material *)

(** X5: [generateEntropy] always returns ["0x"] followed by 32 hex
    digits, the encoding of 16 fresh random bytes that [arrayify] reads
    back; it takes one random draw, assigns [entropy], and stores
    nothing. *)
Theorem generateEntropy_format (st : State E) :
  exists bs,
    generateEntropy st =
      (Ok (hexlify bs),
       set_entropy (Some (hexlify bs)) (set_draws (S (draws st)) st)) /\
    List.length bs = 16%nat /\
    String.length (hexlify bs) = 34%nat /\
    isHexString (hexlify bs) = true /\
    arrayify (hexlify bs) = Returns bs.
Proof.
  exists (map (random_byte (draws st)) (seq 0 16)).
  split; [reflexivity |]. split; [reflexivity |]. split; [reflexivity |].
  split; [apply isHexString_hexlify | apply arrayify_hexlify].
Qed.

(** X6: what [getData] returns is what the storage holds under the key
    afterwards, for every key. *)
Theorem getData_stores_result (key v : string) (st st' : State E) :
  getData key st = (Ok v, st') -> local st' !! key = Some v.
Proof.
  destruct (String.eqb_spec key ENTROPY_KEY) as [-> | He].
  { destruct (getEntropy_Ok st) as (e & Hrun & Hst & _).
    fold (getEntropy (E := E)). rewrite Hrun. now intros [= <- <-]. }
  destruct (String.eqb_spec key MNEMONIC_KEY) as [-> | Hm].
  { destruct (getMnemonic_spec st) as (r & s1 & Hrun & _ & _ & Hst).
    fold (getMnemonic (E := E)). rewrite Hrun. intros [= -> <-].
    now apply Hst. }
  rewrite getData_unfold. unfold getData_body, getLocal. plumbing.
  destruct (local st !! key) as [x |] eqn:Hx; cbn [falsy_string].
  - destruct (String.eqb x "").
    + destruct (String.eqb_spec key ENTROPY_KEY); [contradiction |].
      destruct (String.eqb_spec key MNEMONIC_KEY); [contradiction |].
      discriminate.
    + now intros [= <- <-].
  - destruct (String.eqb_spec key ENTROPY_KEY); [contradiction |].
    destruct (String.eqb_spec key MNEMONIC_KEY); [contradiction |].
    discriminate.
Qed.

(** X7: [generateMnemonic] encodes the entropy [getEntropy] answers and
    assigns [mnemonic]; it neither reads nor writes the stored mnemonic,
    so a mnemonic already stored is ignored and stays as it is. *)
Theorem generateMnemonic_not_stored (st : State E) :
  exists e s1,
    getEntropy st = (Ok e, s1) /\
    generateMnemonic st =
      match entropyToMnemonic e with
      | Returns m => (Ok m, set_mnemonic (Some m) s1)
      | Raises err => (Throw err, s1)
      end /\
    (MNEMONIC_KEY <> ENTROPY_KEY ->
     local (snd (generateMnemonic st)) !! MNEMONIC_KEY =
     local st !! MNEMONIC_KEY).
Proof.
  destruct (getEntropy_Ok st) as (e & Hrun & _).
  exists e, (snd (getEntropy st)). split; [exact Hrun |].
  assert (Hgen : generateMnemonic st =
            match entropyToMnemonic e with
            | Returns m => (Ok m, set_mnemonic (Some m) (snd (getEntropy st)))
            | Raises err => (Throw err, snd (getEntropy st))
            end).
  { unfold generateMnemonic, generateMnemonic_body. unfold bind at 1.
    rewrite Hrun. cbn [snd]. plumbing.
    destruct (entropyToMnemonic e); reflexivity. }
  split; [exact Hgen |].
  intros Hk. rewrite Hgen.
  destruct (entropyToMnemonic e); cbn; now apply getEntropy_local_other.
Qed.

(** ** More on the active account *)

(** X8: for a chain [getChainData] rejects, [updateWallet] throws that
    error after it has overwritten [activeIndex] and [activeChainId] and
    before it derives anything: the cached wallet and STARK key pair are
    the old ones, under a selection that is no longer theirs. *)
Theorem updateWallet_unknown_chain
    (index chainId : Z) (e : string) (st : State E) :
  getChainData chainId = Raises e ->
  updateWallet index chainId st =
    (Throw e, set_activeChainId chainId (set_activeIndex index st)) /\
  activeIndex (snd (updateWallet index chainId st)) = index /\
  activeChainId (snd (updateWallet index chainId st)) = chainId /\
  wallet (snd (updateWallet index chainId st)) = wallet st /\
  starkKeyPair (snd (updateWallet index chainId st)) = starkKeyPair st.
Proof.
  intros Hc. rewrite updateWallet_run. cbv zeta. rewrite Hc.
  repeat split.
Qed.

(** X9: [generateWallet] always ends, and when it throws, because the
    mnemonic cannot be had or the derivation fails, the cached wallet,
    the active selection and the STARK key pair are what they were. *)
Theorem generateWallet_failure_keeps_wallet
    (index : Z) (st : State E) :
  fst (generateWallet index st) <> OutOfFuel /\
  forall e st', generateWallet index st = (Throw e, st') ->
    wallet st' = wallet st /\ activeIndex st' = activeIndex st /\
    activeChainId st' = activeChainId st /\
    starkKeyPair st' = starkKeyPair st.
Proof.
  destruct (generateWallet_spec index st)
    as (r & s1 & Hrun & Hfuel & (Hi & Hc & Hk) & _ & _ & Hr).
  rewrite Hrun. split; [exact Hfuel |].
  intros e st' [= -> <-]. now repeat split.
Qed.

(** X10: [generateStarkwareKeyPair] always ends; when it returns, the key
    pair returned is cached and is the one made from the private key of
    the wallet cached at that point; and with a wallet already cached it
    derives no account: it only replaces the cached key pair by the one
    of that wallet. *)
Theorem generateStarkwareKeyPair_matches_wallet (st : State E) :
  fst (generateStarkwareKeyPair st) <> OutOfFuel /\
  (forall kp st', generateStarkwareKeyPair st = (Ok kp, st') ->
     starkKeyPair st' = Some kp /\
     exists w, wallet st' = Some w /\ kp = keyFromPrivate (privateKey w)) /\
  (forall w, wallet st = Some w ->
     generateStarkwareKeyPair st =
       (Ok (keyFromPrivate (privateKey w)),
        set_starkKeyPair (Some (keyFromPrivate (privateKey w))) st)).
Proof.
  unfold generateStarkwareKeyPair, generateStarkwareKeyPair_body.
  split; [| split].
  - unfold bind at 1. pose proof (getWallet_terminates None None st) as Hf.
    destruct (getWallet None None st) as [[w | e |] s1]; cbn in *;
      [discriminate | discriminate | contradiction].
  - intros kp st'. unfold bind at 1.
    destruct (getWallet None None st) as [[w | e |] s1] eqn:Hrun;
      try discriminate.
    apply getWallet_Ok_cached in Hrun. cbn. intros [= <- <-]. cbn.
    split; [reflexivity |]. now exists w.
  - intros w Hw. unfold bind at 1.
    now rewrite (getWallet_cached st w Hw).
Qed.

(** X11: once [getStakwareKeyPair] has returned a key pair, calling it
    again returns the same key pair and changes nothing: the key pair is
    derived at most once. *)
Theorem getStakwareKeyPair_derives_once
    (kp : KeyPair) (st st' : State E) :
  getStakwareKeyPair st = (Ok kp, st') ->
  getStakwareKeyPair st' = (Ok kp, st').
Proof.
  intros Hrun.
  assert (Hk : starkKeyPair st' = Some kp).
  { unfold getStakwareKeyPair in Hrun. unfold bind at 1 in Hrun.
    unfold get in Hrun. destruct (starkKeyPair st) as [kp0 |] eqn:Hk0.
    - cbn in Hrun. injection Hrun as <- <-. exact Hk0.
    - unfold generateStarkwareKeyPair, generateStarkwareKeyPair_body in Hrun.
      unfold bind at 1 in Hrun.
      destruct (getWallet None None st) as [[w | e |] s1];
        try discriminate.
      cbn in Hrun. now injection Hrun as <- <-. }
  unfold getStakwareKeyPair. unfold bind at 1. unfold get.
  now rewrite Hk.
Qed.

(** X12: a cached STARK key pair is used as it is.  After a completed
    [getAccounts], which replaces the cached wallet, [starkwareSign] and
    [starkwareVerify] still answer with the key pair cached before and
    change nothing. *)
Theorem stale_key_pair_after_getAccounts
    (count : option Z) (kp : KeyPair) (msg : string) (sig : StarkSignature)
    (accounts : list string) (st st' : State E) :
  starkKeyPair st = Some kp ->
  getAccounts count st = (Ok accounts, st') ->
  starkwareSign msg st' = call (stark_sign kp msg) st' /\
  starkwareVerify msg sig st' = call (stark_verify kp msg sig) st'.
Proof.
  intros Hk Hrun. unfold getAccounts in Hrun.
  destruct (getAccounts_loop_spec (Z.to_nat (default 2 count)) 0 [] st)
    as (r & s1 & Hloop & _ & (_ & _ & Hk1) & _).
  rewrite Hrun in Hloop. injection Hloop as _ <-.
  rewrite Hk in Hk1.
  unfold starkwareSign, starkwareVerify, getStakwareKeyPair.
  split; unfold bind at 1; unfold bind at 1; unfold get; now rewrite Hk1.
Qed.

(** ** More on signing *)

(** X13: with a wallet active, [signTransaction] hands the library the
    object without a truthy [from] and otherwise as it came: unlike
    [sendTransaction] it leaves [gas] and [gasLimit] alone.  It answers
    what the library answers and changes no state. *)
Theorem signTransaction_active (st : State E) (w : Wallet) (data : Tx) :
  wallet st = Some w ->
  signTransaction data st = (reply (wallet_sign w (strip_from data)), st) /\
  strip_from data !! "gas" = data !! "gas" /\
  strip_from data !! "gasLimit" = data !! "gasLimit" /\
  (truthy (prop data "from") = true -> strip_from data !! "from" = None).
Proof.
  intros Hw. destruct (strip_from_lookup data) as (Hs1 & _ & Hs3).
  split; [| split; [| split]].
  - unfold signTransaction. unfold bind at 1. unfold get. rewrite Hw.
    plumbing. destruct (wallet_sign w (strip_from data)); reflexivity.
  - now apply Hs3.
  - now apply Hs3.
  - exact Hs1.
Qed.

Lemma arrayify_not_hex data :
  isHexString data = false -> exists e, arrayify data = Raises e.
Proof.
  unfold isHexString, arrayify.
  destruct (strip_0x data) as [digits |].
  - intros ->. eexists. reflexivity.
  - intros _. destruct (all_hex data); eexists; reflexivity.
Qed.

(** X14: with a wallet active, [signMessage] takes a hex string only.
    Anything else makes it throw the error of [arrayify], with no state
    change.  A hex string is read as the bytes whose half-bytes are the
    values of its digits, a leading zero completing an odd count, and
    those bytes are signed as a digest with the private key of the active
    wallet. *)
Theorem signMessage_needs_hex (st : State E) (w : Wallet) (data : string) :
  wallet st = Some w ->
  (isHexString data = false ->
   exists e, arrayify data = Raises e /\ signMessage data st = (Throw e, st)) /\
  (isHexString data = true ->
   exists digits bs,
     data = "0x" +:+ digits /\
     flat_map nibbles bs = digit_values (pad_even digits) /\
     arrayify data = Returns bs /\
     signMessage data st =
       (match signDigest (privateKey w) bs with
        | Returns sigParams => Ok (Some (joinSignature sigParams))
        | Raises e => Throw e
        end, st)).
Proof.
  intros Hw. split; intros Hhex.
  - destruct (arrayify_not_hex data Hhex) as (e & He). exists e.
    split; [exact He |].
    unfold signMessage. unfold bind at 1. unfold get. rewrite Hw, He.
    reflexivity.
  - destruct (arrayify_denotes data Hhex) as (digits & bs & Hm & Hbs & Hn).
    exists digits, bs. split; [exact Hm |]. split; [exact Hn |].
    split; [exact Hbs |].
    unfold signMessage. unfold bind at 1. unfold get. rewrite Hw, Hbs.
    plumbing. destruct (signDigest (privateKey w) bs); reflexivity.
Qed.

(** ** More on sending *)

(** [sendTransaction] with a wallet active and a [from] that is absent,
    falsy or a string, step by step. *)
Lemma sendTransaction_run s w (transaction : Tx) :
  wallet s = Some w ->
  (truthy (prop transaction "from") = true ->
   exists a, transaction !! "from" = Some (JStr a)) ->
  let sent := gas_to_gasLimit (strip_from transaction) in
  let foreign :=
    match transaction !! "from" with
    | Some (JStr a) =>
        negb (String.eqb a "") &&
        negb (String.eqb (toLowerCase a) (toLowerCase (address w)))
    | _ => false
    end in
  let s1 :=
    if foreign then set_console (console s ++ [from_mismatch]) s else s in
  sendTransaction transaction s =
    (match wallet_sendTransaction w sent with
     | Returns r => Ok (Some (hash r))
     | Raises e => Throw e
     end, set_submitted (submitted s1 ++ [(w, sent)]) s1).
Proof.
  intros Hw Hfrom sent foreign s1. subst foreign s1.
  unfold sendTransaction. unfold bind at 1. unfold get. rewrite Hw.
  fold sent. unfold js_toLowerCase, from_mismatch. plumbing.
  destruct (truthy (prop transaction "from")) eqn:Htr.
  - destruct (Hfrom eq_refl) as (a & Ha). unfold prop in *.
    rewrite Ha in *. cbn in Htr. rewrite Htr. cbn [andb].
    destruct (negb (String.eqb (toLowerCase a) (toLowerCase (address w))));
      destruct (wallet_sendTransaction w sent); reflexivity.
  - unfold prop in Htr.
    destruct (transaction !! "from") as [[| | b | n | a] |];
      cbn in Htr; try rewrite Htr; cbn [andb];
      destruct (wallet_sendTransaction w sent); reflexivity.
Qed.

(** X15: a [from] that names another account than the active one is not
    an error.  With a wallet active and a non-empty string as [from],
    [sendTransaction] logs the mismatch warning exactly when the two
    addresses differ after lower-casing, and in both cases submits the
    transaction, without its [from], for the active wallet. *)
Theorem sendTransaction_foreign_sender
    (st : State E) (w : Wallet) (transaction : Tx) (a : string) :
  wallet st = Some w ->
  transaction !! "from" = Some (JStr a) -> a <> "" ->
  let st' := snd (sendTransaction transaction st) in
  let sent := gas_to_gasLimit (delete "from" transaction) in
  console st' =
    (if String.eqb (toLowerCase a) (toLowerCase (address w))
     then console st
     else (console st ++ [from_mismatch])%list) /\
  submitted st' = (submitted st ++ [(w, sent)])%list /\
  sent !! "from" = None /\
  fst (sendTransaction transaction st) =
    match wallet_sendTransaction w sent with
    | Returns r => Ok (Some (hash r))
    | Raises e => Throw e
    end.
Proof.
  intros Hw Ha Hne st' sent. subst st'.
  assert (Htr : truthy (prop transaction "from") = true).
  { unfold prop. rewrite Ha. cbn. now apply negb_true_iff, String.eqb_neq. }
  assert (Hs : strip_from transaction = delete "from" transaction).
  { unfold strip_from. now rewrite Htr. }
  rewrite (sendTransaction_run st w transaction Hw)
    by (intros _; now exists a).
  cbv zeta. rewrite Ha, Hs. fold sent.
  assert (Hn : negb (String.eqb a "") = true)
    by now apply negb_true_iff, String.eqb_neq.
  rewrite Hn. cbn [andb fst snd].
  split; [| split; [| split]].
  - destruct (String.eqb (toLowerCase a) (toLowerCase (address w)));
      reflexivity.
  - destruct (String.eqb (toLowerCase a) (toLowerCase (address w)));
      reflexivity.
  - unfold sent, gas_to_gasLimit.
    destruct (has_key "gas" (delete "from" transaction)).
    + rewrite lookup_delete_ne by discriminate.
      rewrite lookup_insert_ne by discriminate. apply lookup_delete_eq.
    + apply lookup_delete_eq.
  - reflexivity.
Qed.

(** X16: a truthy [from] that is not a string (a number, [true]) makes
    [sendTransaction] throw a type error at once: nothing is logged and
    nothing is submitted. *)
Theorem sendTransaction_rejects_non_string_from
    (st : State E) (w : Wallet) (transaction : Tx) :
  wallet st = Some w ->
  truthy (prop transaction "from") = true ->
  (forall a, prop transaction "from" <> JStr a) ->
  sendTransaction transaction st =
    (Throw "TypeError: transaction.from.toLowerCase is not a function", st).
Proof.
  intros Hw Htr Hns. unfold sendTransaction. unfold bind at 1. unfold get.
  rewrite Hw, Htr. unfold js_toLowerCase.
  destruct (prop transaction "from") as [| | b | n | a]; try reflexivity.
  now destruct (Hns a).
Qed.

(** X17: the rename of [gas] always wins.  With a wallet active, a
    transaction that has a [gas] field is submitted with [gasLimit] set
    to that value, also when it came with a [gasLimit] of its own, which
    is lost; a transaction without a [gas] field is submitted with its
    fields as they are, apart from a truthy [from]. *)
Theorem sendTransaction_gas_overrides_gasLimit
    (st : State E) (w : Wallet) (transaction : Tx) :
  wallet st = Some w ->
  (truthy (prop transaction "from") = true ->
   exists a, transaction !! "from" = Some (JStr a)) ->
  let sent := gas_to_gasLimit (strip_from transaction) in
  submitted (snd (sendTransaction transaction st)) =
    (submitted st ++ [(w, sent)])%list /\
  (forall g, transaction !! "gas" = Some g ->
     sent !! "gasLimit" = Some g /\ sent !! "gas" = None) /\
  (transaction !! "gas" = None -> sent = strip_from transaction).
Proof.
  intros Hw Hfrom sent.
  rewrite (sendTransaction_run st w transaction Hw Hfrom). cbv zeta.
  fold sent. cbn [snd].
  destruct (strip_from_lookup transaction) as (_ & _ & Hs3).
  split; [| split].
  - cbn. now destruct (match transaction !! "from" with
                       | Some (JStr a) => _ | _ => false end).
  - intros g Hg.
    assert (Hg' : strip_from transaction !! "gas" = Some g)
      by (rewrite Hs3 by discriminate; exact Hg).
    destruct (gas_to_gasLimit_lookup _ g Hg') as (H1 & H2 & _). now split.
  - intros Hg. unfold sent, gas_to_gasLimit, has_key.
    now rewrite Hs3, Hg by discriminate.
Qed.

(** ** More on listing accounts *)

Lemma getMnemonic_nonempty s m s' :
  (forall e x, entropyToMnemonic e = Returns x -> x <> "") ->
  getMnemonic s = (Ok m, s') -> m <> "".
Proof.
  intros Hwords.
  destruct (falsy_string (local s !! MNEMONIC_KEY)) eqn:Hf.
  2: { destruct (falsy_string_false _ Hf) as (x & Hx & Hne).
       unfold getMnemonic. rewrite (getData_cached _ s x Hx Hne).
       now intros [= <- <-]. }
  destruct (String.eqb_spec MNEMONIC_KEY ENTROPY_KEY) as [Heq | Hk].
  { unfold getMnemonic. rewrite Heq. fold (getEntropy (E := E)).
    destruct (getEntropy_Ok s) as (e & Hrun & _ & Hne).
    rewrite Hrun. now intros [= <- <-]. }
  destruct (getMnemonic_generate s Hf Hk) as (e & s1 & _ & Hrun).
  rewrite Hrun. destruct (entropyToMnemonic e) as [x | err] eqn:Hx;
    [| discriminate].
  intros [= <- <-]. now apply (Hwords e).
Qed.

Lemma generateWallet_Ok_mnemonic index s w s' :
  (forall e x, entropyToMnemonic e = Returns x -> x <> "") ->
  generateWallet index s = (Ok w, s') ->
  exists m, m <> "" /\ local s' !! MNEMONIC_KEY = Some m /\
            fromMnemonic m (path_of index) = Returns w.
Proof.
  intros Hwords.
  destruct (getMnemonic_spec s) as (r & s1 & Hrun & _ & _ & Hst).
  unfold generateWallet, generatePath. plumbing. rewrite Hrun.
  destruct r as [m | err |]; try discriminate.
  cbn. destruct (fromMnemonic m _) as [w' | err] eqn:Hfrom;
    try discriminate.
  cbn. intros [= <- <-]. exists m. split; [| split].
  - exact (getMnemonic_nonempty s m s1 Hwords Hrun).
  - cbn. now apply Hst.
  - exact Hfrom.
Qed.

(** The loop of [getAccounts] appends, for each index in turn, the
    address of the account derived from the one mnemonic the storage
    holds at the end. *)
Lemma getAccounts_loop_addresses todo :
  (forall e x, entropyToMnemonic e = Returns x -> x <> "") ->
  forall i accounts s result s',
    getAccounts_loop todo i accounts s = (Ok result, s') ->
    exists tail,
      result = (accounts ++ tail)%list /\ List.length tail = todo /\
      forall j, (j < todo)%nat ->
        exists m w,
          local s' !! MNEMONIC_KEY = Some m /\
          fromMnemonic m (path_of (i + Z.of_nat j)) = Returns w /\
          tail !! j = Some (address w).
Proof.
  intros Hwords. induction todo as [| todo IH];
    intros i accounts s result s' Hrun.
  - cbn in Hrun. injection Hrun as <- <-. exists [].
    split; [now rewrite app_nil_r |]. split; [reflexivity |]. lia.
  - cbn [getAccounts_loop] in Hrun. unfold bind in Hrun.
    destruct (generateWallet i s) as [[w | e |] s1] eqn:Hgen;
      try discriminate.
    destruct (generateWallet_Ok_mnemonic i s w s1 Hwords Hgen)
      as (m & Hne & Hm & Hfrom).
    pose proof (steady_getAccounts_loop todo (i + 1)
                  (accounts ++ [address w])%list s1) as Hev.
    rewrite Hrun in Hev. cbn [snd] in Hev.
    destruct (IH _ _ _ _ _ Hrun) as (tail & -> & Hlen & Hall).
    exists (address w :: tail). split; [| split].
    + now rewrite <- app_assoc.
    + cbn. now rewrite Hlen.
    + intros [| j] Hj.
      * exists m, w. replace (i + Z.of_nat 0) with i by lia.
        split; [| now split].
        exact (ev_kept _ _ Hev _ _ Hm Hne).
      * destruct (Hall j ltac:(lia)) as (m' & w' & Hm' & Hfrom' & Hj').
        exists m', w'.
        replace (i + Z.of_nat (S j)) with (i + 1 + Z.of_nat j) by lia.
        now repeat split.
Qed.

(** X18: when [getAccounts(count)] returns, it returns one address for
    each index from 0 up to [count] (none for a count of zero or less,
    two when the count is left out), in order, and each is the address of
    the account derived at that index from the mnemonic the storage holds
    afterwards.  It relies on the encoding never producing the empty
    phrase. *)
Theorem getAccounts_lists_in_order
    (count : option Z) (st st' : State E) (accounts : list string) :
  (forall e x, entropyToMnemonic e = Returns x -> x <> "") ->
  getAccounts count st = (Ok accounts, st') ->
  List.length accounts = Z.to_nat (default 2%Z count) /\
  forall j, (j < Z.to_nat (default 2%Z count))%nat ->
    exists m w,
      local st' !! MNEMONIC_KEY = Some m /\
      fromMnemonic m (path_of (Z.of_nat j)) = Returns w /\
      accounts !! j = Some (address w).
Proof.
  intros Hwords Hrun. unfold getAccounts in Hrun.
  destruct (getAccounts_loop_addresses _ Hwords _ _ _ _ _ Hrun)
    as (tail & -> & Hlen & Hall).
  split; [exact Hlen |].
  intros j Hj. destruct (Hall j Hj) as (m & w & Hm & Hfrom & Htail).
  exists m, w. now repeat split.
Qed.

(** ** When the derivation succeeds *)

Lemma generateWallet_run index s :
  generateWallet index s =
    match getMnemonic s with
    | (Ok m, s1) =>
        let s2 := set_path (Some (path_of index)) s1 in
        match fromMnemonic m (path_of index) with
        | Returns w => (Ok w, set_wallet (Some w) s2)
        | Raises e => (Throw e, s2)
        end
    | (Throw e, s1) => (Throw e, s1)
    | (OutOfFuel, s1) => (OutOfFuel, s1)
    end.
Proof.
  unfold generateWallet, generatePath, path_of. plumbing.
  destruct (getMnemonic s) as [[m | e |] s1]; try reflexivity.
  cbv zeta. destruct (fromMnemonic m _); reflexivity.
Qed.

(** X19: [updateWallet] returns a wallet exactly when the chain is known
    to [getChainData], [getMnemonic] returns a phrase and
    [fromMnemonic] derives that wallet from the phrase at the path of the
    index; in every other case it throws. *)
Theorem updateWallet_returns_iff
    (index chainId : Z) (st : State E) (w : Wallet) :
  (exists st', updateWallet index chainId st = (Ok w, st')) <->
  ((exists chain, getChainData chainId = Returns chain) /\
   exists m s1,
     getMnemonic (set_activeChainId chainId (set_activeIndex index st)) =
       (Ok m, s1) /\
     fromMnemonic m (path_of index) = Returns w).
Proof.
  rewrite updateWallet_run. cbv zeta. rewrite generateWallet_run.
  split.
  - intros (st' & Hrun).
    destruct (getChainData chainId) as [chain | e]; [| discriminate].
    split; [now exists chain |].
    destruct (getMnemonic _) as [[m | e |] s1]; try discriminate.
    exists m, s1. split; [reflexivity |].
    cbv zeta in Hrun.
    destruct (fromMnemonic m (path_of index)) as [w' | e];
      [| discriminate].
    now injection Hrun as -> _.
  - intros ((chain & Hc) & m & s1 & Hm & Hfrom).
    rewrite Hc, Hm. cbv zeta. rewrite Hfrom. eexists. reflexivity.
Qed.

End Properties.

(** * The statements on the sample implementation *)

Example sample_active_run :
  getWallet (Some 0) (Some 1) sample_start = (Ok sample_wallet0, sample_active) /\
  wallet sample_active = Some sample_wallet0 /\
  activeIndex sample_active = 0 /\ activeChainId sample_active = 1.
Proof. repeat split; vm_compute; reflexivity. Qed.

(** The cached wallet is kept for a request that names another index and
    another chain, and a request that names the active pair re-derives. *)
Lemma getWallet_comparison_inverted_witness :
  wallet sample_active = Some sample_wallet0 /\
  getWallet (Some 1) (Some 4) sample_active = (Ok sample_wallet0, sample_active) /\
  getWallet (Some 0) (Some 1) sample_active = updateWallet 0 1 sample_active.
Proof.
  assert (Hw : wallet sample_active = Some sample_wallet0)
    by (vm_compute; reflexivity).
  split; [exact Hw |]. split.
  - apply (proj1 (getWallet_comparison_inverted
                    (Some 1) (Some 4) sample_active sample_wallet0 Hw));
      vm_compute; reflexivity.
  - apply (proj2 (getWallet_comparison_inverted
                    (Some 0) (Some 1) sample_active sample_wallet0 Hw)).
    left. vm_compute. reflexivity.
Defined.

(** The claim C2 fails for [starkwareSign]: on the fresh module, where no
    wallet is active, it answers a signature, not null, and leaves a
    wallet behind. *)
Lemma starkwareSign_signs_without_wallet :
  wallet sample_start = None /\
  fst (starkwareSign "hello" sample_start) =
    Ok ("hello signed with stark(" +:+ privateKey sample_wallet0 +:+ ")") /\
  wallet (snd (starkwareSign "hello" sample_start)) = Some sample_wallet0.
Proof. repeat split; vm_compute; reflexivity. Qed.

Lemma signing_without_wallet_witness :
  wallet sample_start = None /\
  sendTransaction tx_with_from sample_start =
    (Ok None, no_active_account sample_start) /\
  signPersonalMessage "hello" sample_start =
    (Ok None, no_active_account sample_start) /\
  starkwareSign "hello" sample_start =
    bind (updateWallet 0 1)
      (fun w => call (stark_sign (keyFromPrivate (privateKey w)) "hello"))
      sample_start.
Proof.
  assert (Hw : wallet sample_start = None) by reflexivity.
  destruct (signing_without_wallet sample_start tx_with_from tx_with_from
              "0x00" "hello" "hello" "sig" Hw)
    as (H1 & _ & _ & H4 & H5).
  destruct (H5 eq_refl) as (H6 & _).
  repeat split; assumption.
Defined.

Lemma rederived_keys_consistent_witness :
  rederives sample_start (Some 0) (Some 1) = true /\
  getWallet (Some 0) (Some 1) sample_start = (Ok sample_wallet0, sample_active) /\
  wallet sample_active = Some sample_wallet0 /\
  starkKeyPair sample_active =
    Some (keyFromPrivate (privateKey sample_wallet0)).
Proof.
  assert (Hre : rederives sample_start (Some 0) (Some 1) = true)
    by reflexivity.
  assert (Hrun : getWallet (Some 0) (Some 1) sample_start =
                 (Ok sample_wallet0, sample_active))
    by (vm_compute; reflexivity).
  destruct (proj2 (rederived_keys_consistent (Some 0) (Some 1) sample_start
                     Hre) sample_wallet0 sample_active Hrun)
    as (Hw & Hk & _).
  repeat split; assumption.
Defined.

Lemma secret_material_idempotent_witness :
  (forall e m, entropyToMnemonic (Env := sample_env) e = Returns m -> m <> "") /\
  getEntropy (snd (getEntropy sample_start)) = getEntropy sample_start /\
  getMnemonic (snd (getMnemonic sample_start)) = getMnemonic sample_start.
Proof.
  assert (Hwords : forall e m,
            entropyToMnemonic (Env := sample_env) e = Returns m -> m <> "").
  { intros e m. cbn. destruct (isHexString e); [| discriminate].
    intros [= <-]. discriminate. }
  destruct (secret_material_idempotent sample_start Hwords)
    as (_ & He & _ & Hm).
  split; [exact Hwords |]. split; [exact He | exact Hm].
Defined.

Lemma getData_unknown_key_witness :
  "PASSWORD" <> ENTROPY_KEY (Env := sample_env) /\
  "PASSWORD" <> MNEMONIC_KEY (Env := sample_env) /\
  getData "PASSWORD" sample_start =
    (Throw "Unknown data key: PASSWORD", sample_start).
Proof.
  assert (H1 : "PASSWORD" <> ENTROPY_KEY (Env := sample_env)) by discriminate.
  assert (H2 : "PASSWORD" <> MNEMONIC_KEY (Env := sample_env)) by discriminate.
  split; [exact H1 |]. split; [exact H2 |].
  apply (getData_unknown_key "PASSWORD" sample_start H1 H2). reflexivity.
Defined.

(** The claim C6 fails for a falsy [from]: the empty string stays in the
    object that is submitted. *)
Lemma sendTransaction_keeps_falsy_from :
  wallet sample_active = Some sample_wallet0 /\
  tx_empty_from !! "gas" = Some (JNum 21000) /\
  tx_empty_from !! "gasLimit" = None /\
  exists sent,
    submitted (snd (sendTransaction tx_empty_from sample_active)) =
      [(sample_wallet0, sent)] /\
    sent !! "from" = Some (JStr "") /\
    sent !! "gasLimit" = Some (JNum 21000) /\
    sent !! "gas" = None.
Proof.
  split; [vm_compute; reflexivity |].
  split; [vm_compute; reflexivity |].
  split; [vm_compute; reflexivity |].
  exists (<["from" := JStr ""]> (<["gasLimit" := JNum 21000]> ∅)).
  repeat split; vm_compute; reflexivity.
Qed.

Lemma sendTransaction_normalizes_witness :
  wallet sample_active = Some sample_wallet0 /\
  tx_with_from !! "gas" = Some (JNum 21000) /\
  tx_with_from !! "gasLimit" = None /\
  let sent := gas_to_gasLimit (strip_from tx_with_from) in
  submitted (snd (sendTransaction tx_with_from sample_active)) =
    [(sample_wallet0, sent)] /\
  sent !! "gasLimit" = Some (JNum 21000) /\
  sent !! "gas" = None /\ sent !! "from" = None.
Proof.
  assert (Hw : wallet sample_active = Some sample_wallet0)
    by (vm_compute; reflexivity).
  assert (Hg : tx_with_from !! "gas" = Some (JNum 21000))
    by (vm_compute; reflexivity).
  assert (Hl : tx_with_from !! "gasLimit" = None)
    by (vm_compute; reflexivity).
  assert (Hf : truthy (prop tx_with_from "from") = true ->
               exists a, tx_with_from !! "from" = Some (JStr a)).
  { intros _. exists "0xABCD". vm_compute. reflexivity. }
  destruct (sendTransaction_normalizes sample_active sample_wallet0
              tx_with_from (JNum 21000) Hw Hg Hl Hf)
    as (Hsub & _ & Hgl & Hgas & Hfrom & _).
  split; [exact Hw |]. split; [exact Hg |]. split; [exact Hl |].
  cbv zeta. split; [exact Hsub |]. split; [exact Hgl |].
  split; [exact Hgas |]. apply Hfrom. vm_compute. reflexivity.
Defined.

(** The claim C7 fails on the module state: [generatePath] assigns the
    module variable [path]. *)
Lemma generatePath_writes_path :
  path sample_start = None /\
  path (snd (generatePath 0 sample_start)) = Some "m/44'/60'/0'/0/0" /\
  snd (generatePath 0 sample_start) <> sample_start.
Proof. repeat split; try reflexivity. discriminate. Qed.

Lemma generatePath_sets_path_witness :
  safe_integer 7 /\
  generatePath 7 sample_start =
    (Ok "m/44'/60'/0'/0/7", set_path (Some "m/44'/60'/0'/0/7") sample_start) /\
  read_decimal "7" = Some 7.
Proof.
  assert (Hs : safe_integer 7) by (unfold safe_integer, MAX_SAFE_INTEGER; lia).
  destruct (generatePath_sets_path 7 sample_start Hs) as (Hrun & Hread & _).
  split; [exact Hs |]. split; [exact Hrun | exact Hread].
Defined.

Lemma signPersonalMessage_detects_hex_witness :
  wallet sample_active = Some sample_wallet0 /\
  arrayify "0x6869" = Returns [x68; x69] /\
  signPersonalMessage "0x6869" sample_active =
    (reply (wallet_signMessage (Env := sample_env) sample_wallet0
              (Bytes [x68; x69])),
     sample_active) /\
  signPersonalMessage "hi" sample_active =
    (reply (wallet_signMessage (Env := sample_env) sample_wallet0 (Text "hi")),
     sample_active).
Proof.
  assert (Hw : wallet sample_active = Some sample_wallet0)
    by (vm_compute; reflexivity).
  split; [exact Hw |].
  destruct (proj1 (signPersonalMessage_detects_hex sample_active
                     sample_wallet0 "0x6869" Hw) eq_refl)
    as (digits & bs & _ & _ & Hbs & Hrun).
  assert (Hb : bs = [x68; x69]).
  { vm_compute in Hbs. now injection Hbs as <-. }
  rewrite Hb in Hbs, Hrun.
  split; [exact Hbs |]. split; [exact Hrun |].
  apply (proj2 (signPersonalMessage_detects_hex sample_active
                  sample_wallet0 "hi" Hw)). reflexivity.
Defined.

Example signPersonalMessage_sample :
  fst (signPersonalMessage "0x6869" sample_active) =
    Ok (Some "bytes 0x6869 signed by Addr(m/44'/60'/0'/0/0)") /\
  fst (signPersonalMessage "hi" sample_active) =
    Ok (Some "text hi signed by Addr(m/44'/60'/0'/0/0)").
Proof. split; vm_compute; reflexivity. Qed.

(** After [getAccounts(2)] the module's wallet is the account of index 1,
    while the selection still says index 0 and the STARK key pair is
    still the one of the index 0 account. *)
Lemma getAccounts_overwrites_wallet_witness :
  1 <= 2 /\
  getAccounts (Some 2) sample_active =
    (Ok ["Addr(m/44'/60'/0'/0/0)"; "Addr(m/44'/60'/0'/0/1)"], sample_listed) /\
  (address <$> wallet sample_listed) = Some "Addr(m/44'/60'/0'/0/1)" /\
  activeIndex sample_listed = 0 /\
  starkKeyPair sample_listed =
    Some (keyFromPrivate (privateKey sample_wallet0)).
Proof.
  assert (Hc : 1 <= 2) by lia.
  assert (Hrun : getAccounts (Some 2) sample_active =
            (Ok ["Addr(m/44'/60'/0'/0/0)"; "Addr(m/44'/60'/0'/0/1)"],
             sample_listed))
    by (vm_compute; reflexivity).
  destruct (getAccounts_overwrites_wallet 2 sample_active Hc)
    as (r & st' & Hrun' & _ & Hi & _ & Hk & Hres).
  rewrite Hrun in Hrun'. injection Hrun' as <- <-.
  destruct (Hres _ eq_refl) as (_ & m & w & _ & Hfrom & Hw).
  split; [exact Hc |]. split; [exact Hrun |]. split; [| split].
  - rewrite Hw. cbn in Hfrom. injection Hfrom as <-. reflexivity.
  - rewrite Hi. vm_compute. reflexivity.
  - rewrite Hk. vm_compute. reflexivity.
Defined.

(** * The further statements on the sample implementation *)

Lemma sample_words_nonempty :
  forall e m, entropyToMnemonic (Env := sample_env) e = Returns m -> m <> "".
Proof.
  intros e m. cbn. destruct (isHexString e); [| discriminate].
  intros [= <-]. discriminate.
Qed.

Lemma stored_values_never_overwritten_witness :
  local sample_active !! "ENTROPY" =
    Some "0x000102030405060708090a0b0c0d0e0f" /\
  local (after_all sample_calls sample_active) !! "ENTROPY" =
    Some "0x000102030405060708090a0b0c0d0e0f".
Proof.
  assert (H : local sample_active !! "ENTROPY" =
              Some "0x000102030405060708090a0b0c0d0e0f")
    by (vm_compute; reflexivity).
  split; [exact H |].
  apply (stored_values_never_overwritten sample_calls sample_active
           "ENTROPY" _ H).
  discriminate.
Defined.

Lemma caches_never_cleared_witness :
  is_Some (wallet sample_active) /\
  is_Some (wallet (after_all sample_calls sample_active)) /\
  is_Some (starkKeyPair (after_all sample_calls sample_active)).
Proof.
  assert (Hw : is_Some (wallet sample_active))
    by (exists sample_wallet0; vm_compute; reflexivity).
  assert (Hk : is_Some (starkKeyPair sample_active))
    by (eexists; vm_compute; reflexivity).
  destruct (caches_never_cleared sample_calls sample_active) as (H1 & H2).
  split; [exact Hw |]. split; [exact (H1 Hw) | exact (H2 Hk)].
Defined.

Lemma stark_key_pair_implies_wallet_witness :
  is_Some (starkKeyPair
             (after_all [StarkwareSign "hello"] (initial (E := sample_env) ∅))) /\
  is_Some (wallet
             (after_all [StarkwareSign "hello"] (initial (E := sample_env) ∅))).
Proof.
  assert (Hk : is_Some (starkKeyPair
             (after_all [StarkwareSign "hello"] (initial (E := sample_env) ∅))))
    by (eexists; vm_compute; reflexivity).
  split; [exact Hk |].
  exact (stark_key_pair_implies_wallet ∅ [StarkwareSign "hello"] Hk).
Defined.

Lemma getData_stores_result_witness :
  getData "MNEMONIC" sample_start =
    (Ok "words of 0x000102030405060708090a0b0c0d0e0f",
     snd (getData "MNEMONIC" sample_start)) /\
  local (snd (getData "MNEMONIC" sample_start)) !! "MNEMONIC" =
    Some "words of 0x000102030405060708090a0b0c0d0e0f".
Proof.
  assert (H : getData "MNEMONIC" sample_start =
            (Ok "words of 0x000102030405060708090a0b0c0d0e0f",
             snd (getData "MNEMONIC" sample_start)))
    by (vm_compute; reflexivity).
  split; [exact H |].
  exact (getData_stores_result "MNEMONIC" _ sample_start _ H).
Defined.

Lemma updateWallet_unknown_chain_witness :
  getChainData (Env := sample_env) 7 =
    Raises "ChainId missing or not supported" /\
  fst (updateWallet 3 7 sample_active) =
    Throw "ChainId missing or not supported" /\
  activeIndex (snd (updateWallet 3 7 sample_active)) = 3 /\
  wallet (snd (updateWallet 3 7 sample_active)) = Some sample_wallet0.
Proof.
  assert (Hc : getChainData (Env := sample_env) 7 =
               Raises "ChainId missing or not supported") by reflexivity.
  destruct (updateWallet_unknown_chain 3 7 _ sample_active Hc)
    as (Hrun & Hi & _ & Hw & _).
  split; [exact Hc |]. split; [now rewrite Hrun |]. split; [exact Hi |].
  rewrite Hw. vm_compute. reflexivity.
Defined.

Lemma generateWallet_failure_keeps_wallet_witness :
  generateWallet 0 sample_broken =
    (Throw "invalid entropy", snd (generateWallet 0 sample_broken)) /\
  wallet (snd (generateWallet 0 sample_broken)) = None.
Proof.
  assert (H : generateWallet 0 sample_broken =
              (Throw "invalid entropy", snd (generateWallet 0 sample_broken)))
    by (vm_compute; reflexivity).
  split; [exact H |].
  destruct (proj2 (generateWallet_failure_keeps_wallet 0 sample_broken) _ _ H)
    as (Hw & _).
  rewrite Hw. reflexivity.
Defined.

Lemma generateStarkwareKeyPair_matches_wallet_witness :
  wallet sample_listed = Some sample_wallet1 /\
  starkKeyPair sample_listed =
    Some (keyFromPrivate (privateKey sample_wallet0)) /\
  generateStarkwareKeyPair sample_listed =
    (Ok (keyFromPrivate (privateKey sample_wallet1)),
     set_starkKeyPair (Some (keyFromPrivate (privateKey sample_wallet1)))
       sample_listed).
Proof.
  assert (Hw : wallet sample_listed = Some sample_wallet1)
    by (vm_compute; reflexivity).
  split; [exact Hw |]. split; [vm_compute; reflexivity |].
  exact (proj2 (proj2 (generateStarkwareKeyPair_matches_wallet sample_listed))
           sample_wallet1 Hw).
Defined.

Lemma getStakwareKeyPair_derives_once_witness :
  getStakwareKeyPair sample_start =
    (Ok (keyFromPrivate (privateKey sample_wallet0)),
     snd (getStakwareKeyPair sample_start)) /\
  getStakwareKeyPair (snd (getStakwareKeyPair sample_start)) =
    (Ok (keyFromPrivate (privateKey sample_wallet0)),
     snd (getStakwareKeyPair sample_start)).
Proof.
  assert (H : getStakwareKeyPair sample_start =
              (Ok (keyFromPrivate (privateKey sample_wallet0)),
               snd (getStakwareKeyPair sample_start)))
    by (vm_compute; reflexivity).
  split; [exact H |].
  exact (getStakwareKeyPair_derives_once _ sample_start _ H).
Defined.

Lemma stale_key_pair_after_getAccounts_witness :
  starkKeyPair sample_active =
    Some (keyFromPrivate (privateKey sample_wallet0)) /\
  wallet sample_listed = Some sample_wallet1 /\
  starkwareSign "hello" sample_listed =
    call (stark_sign (keyFromPrivate (privateKey sample_wallet0)) "hello")
      sample_listed.
Proof.
  assert (Hk : starkKeyPair sample_active =
               Some (keyFromPrivate (privateKey sample_wallet0)))
    by (vm_compute; reflexivity).
  assert (Hrun : getAccounts (Some 2) sample_active =
            (Ok ["Addr(m/44'/60'/0'/0/0)"; "Addr(m/44'/60'/0'/0/1)"],
             sample_listed))
    by (vm_compute; reflexivity).
  split; [exact Hk |]. split; [vm_compute; reflexivity |].
  exact (proj1 (stale_key_pair_after_getAccounts (E := sample_env)
                  (Some 2) _ "hello" ("sig" : string) _ sample_active
                  sample_listed Hk Hrun)).
Defined.

Lemma signTransaction_active_witness :
  wallet sample_active = Some sample_wallet0 /\
  signTransaction tx_with_from sample_active =
    (Ok (Some "signed by Addr(m/44'/60'/0'/0/0)"), sample_active) /\
  strip_from tx_with_from !! "gas" = Some (JNum 21000) /\
  strip_from tx_with_from !! "from" = None.
Proof.
  assert (Hw : wallet sample_active = Some sample_wallet0)
    by (vm_compute; reflexivity).
  destruct (signTransaction_active sample_active sample_wallet0
              tx_with_from Hw) as (Hrun & Hg & _ & Hf).
  split; [exact Hw |]. split; [exact Hrun |]. split.
  - rewrite Hg. vm_compute. reflexivity.
  - apply Hf. vm_compute. reflexivity.
Defined.

Lemma signMessage_needs_hex_witness :
  wallet sample_active = Some sample_wallet0 /\
  (exists e, arrayify "hello" = Raises e /\
             signMessage "hello" sample_active = (Throw e, sample_active)) /\
  arrayify "0x00ff" = Returns [x00; xff] /\
  signMessage "0x00ff" sample_active =
    (match signDigest (Env := sample_env) (privateKey sample_wallet0)
             [x00; xff] with
     | Returns sigParams => Ok (Some (joinSignature sigParams))
     | Raises e => Throw e
     end, sample_active).
Proof.
  assert (Hw : wallet sample_active = Some sample_wallet0)
    by (vm_compute; reflexivity).
  split; [exact Hw |]. split.
  - apply (proj1 (signMessage_needs_hex sample_active sample_wallet0
                    "hello" Hw)). reflexivity.
  - destruct (proj2 (signMessage_needs_hex sample_active sample_wallet0
                       "0x00ff" Hw) eq_refl)
      as (digits & bs & _ & _ & Hbs & Hrun).
    assert (Hb : bs = [x00; xff]).
    { vm_compute in Hbs. now injection Hbs as <-. }
    rewrite Hb in Hbs, Hrun. split; [exact Hbs | exact Hrun].
Defined.

Lemma sendTransaction_foreign_sender_witness :
  wallet sample_active = Some sample_wallet0 /\
  tx_with_from !! "from" = Some (JStr "0xABCD") /\
  console (snd (sendTransaction tx_with_from sample_active)) =
    [from_mismatch] /\
  submitted (snd (sendTransaction tx_with_from sample_active)) =
    [(sample_wallet0, gas_to_gasLimit (delete "from" tx_with_from))].
Proof.
  assert (Hw : wallet sample_active = Some sample_wallet0)
    by (vm_compute; reflexivity).
  assert (Ha : tx_with_from !! "from" = Some (JStr "0xABCD"))
    by (vm_compute; reflexivity).
  assert (Hne : "0xABCD" <> "") by discriminate.
  destruct (sendTransaction_foreign_sender sample_active sample_wallet0
              tx_with_from "0xABCD" Hw Ha Hne) as (Hc & Hs & _).
  split; [exact Hw |]. split; [exact Ha |]. split; [exact Hc | exact Hs].
Defined.

Lemma sendTransaction_rejects_non_string_from_witness :
  wallet sample_active = Some sample_wallet0 /\
  truthy (prop tx_number_from "from") = true /\
  sendTransaction tx_number_from sample_active =
    (Throw "TypeError: transaction.from.toLowerCase is not a function",
     sample_active).
Proof.
  assert (Hw : wallet sample_active = Some sample_wallet0)
    by (vm_compute; reflexivity).
  assert (Ht : truthy (prop tx_number_from "from") = true)
    by (vm_compute; reflexivity).
  assert (Hn : forall a, prop tx_number_from "from" <> JStr a).
  { intros a. vm_compute. discriminate. }
  split; [exact Hw |]. split; [exact Ht |].
  exact (sendTransaction_rejects_non_string_from sample_active
           sample_wallet0 tx_number_from Hw Ht Hn).
Defined.

Lemma sendTransaction_gas_overrides_gasLimit_witness :
  wallet sample_active = Some sample_wallet0 /\
  tx_both_limits !! "gasLimit" = Some (JNum 50000) /\
  submitted (snd (sendTransaction tx_both_limits sample_active)) =
    [(sample_wallet0, gas_to_gasLimit (strip_from tx_both_limits))] /\
  gas_to_gasLimit (strip_from tx_both_limits) !! "gasLimit" =
    Some (JNum 21000).
Proof.
  assert (Hw : wallet sample_active = Some sample_wallet0)
    by (vm_compute; reflexivity).
  assert (Hf : truthy (prop tx_both_limits "from") = true ->
               exists a, tx_both_limits !! "from" = Some (JStr a)).
  { vm_compute. discriminate. }
  destruct (sendTransaction_gas_overrides_gasLimit sample_active
              sample_wallet0 tx_both_limits Hw Hf) as (Hs & Hg & _).
  split; [exact Hw |]. split; [vm_compute; reflexivity |].
  split; [exact Hs |].
  apply (Hg (JNum 21000)). vm_compute. reflexivity.
Defined.

Lemma getAccounts_lists_in_order_witness :
  getAccounts None sample_start =
    (Ok ["Addr(m/44'/60'/0'/0/0)"; "Addr(m/44'/60'/0'/0/1)"],
     snd (getAccounts None sample_start)) /\
  exists m w,
    local (snd (getAccounts None sample_start)) !! "MNEMONIC" = Some m /\
    fromMnemonic (Env := sample_env) m "m/44'/60'/0'/0/1" = Returns w /\
    address w = "Addr(m/44'/60'/0'/0/1)".
Proof.
  assert (Hrun : getAccounts None sample_start =
            (Ok ["Addr(m/44'/60'/0'/0/0)"; "Addr(m/44'/60'/0'/0/1)"],
             snd (getAccounts None sample_start)))
    by (vm_compute; reflexivity).
  split; [exact Hrun |].
  destruct (getAccounts_lists_in_order None sample_start _ _
              sample_words_nonempty Hrun) as (_ & Hall).
  destruct (Hall 1%nat ltac:(cbn; lia)) as (m & w & Hm & Hfrom & Hj).
  exists m, w. split; [exact Hm |]. split; [exact Hfrom |].
  cbn in Hj. now injection Hj as <-.
Defined.
